(** * The developer-portal publishing scripts ([scripts.v2/publish.js]
      and the utilities it requires), embedded in Rocq.

    JavaScript strings are modelled by [string]: a sequence of code units,
    here restricted to the code units below 256.  Every string operation
    the scripts use ([replace], [split], [startsWith], [lastIndexOf],
    [substring], concatenation) works code unit by code unit, so nothing
    in the development depends on the restriction.

    The file is organised as the script is: the JavaScript primitives it
    calls, the packages it requires ([moment], [crypto], [mime-types],
    [JSON]), the effects it performs, and then its functions, each under
    the name it has in the source. *)

From Stdlib Require Import ZArith List String Ascii Bool Lia.
Import ListNotations.

Local Open Scope string_scope.
Local Open Scope Z_scope.

(* ===================================================================== *)
(** ** JavaScript values and string primitives *)
(* ===================================================================== *)

Module JS.

(** The values that reach the tests and template literals of the
    script: [undefined], [null], booleans and strings. *)
Inductive value : Type :=
| Undefined
| Null
| Bool (b : bool)
| Str (s : string).

(** ToBoolean: what [if (v)], [v && w] and [v || w] test. *)
Definition truthy (v : value) : bool :=
  match v with
  | Undefined | Null => false
  | Bool b => b
  | Str s => negb (s =? "")%string
  end.

(** [v != null]: loose inequality; only [null] and [undefined] are
    loosely equal to [null]. *)
Definition loose_ne_null (v : value) : bool :=
  match v with
  | Undefined | Null => false
  | Bool _ | Str _ => true
  end.

(** ToString, as applied by a template literal [`${v}`]. *)
Definition to_string (v : value) : string :=
  match v with
  | Undefined => "undefined"
  | Null => "null"
  | Bool true => "true"
  | Bool false => "false"
  | Str s => s
  end.

(** [a || b]. *)
Definition or (a b : value) : value := if truthy a then a else b.

(** [s.startsWith(p)]. *)
Definition startsWith (s p : string) : bool := String.prefix p s.

(** The rest of [s] after its first [n] code units. *)
Fixpoint drop (n : nat) (s : string) : string :=
  match n, s with
  | O, _ => s
  | S _, EmptyString => EmptyString
  | S n', String _ s' => drop n' s'
  end.

(** [s.indexOf(p)]: index of the first occurrence, [-1] if none. *)
Fixpoint indexOf (s p : string) : Z :=
  if String.prefix p s then 0
  else match s with
       | EmptyString => -1
       | String _ s' =>
           let i := indexOf s' p in
           if i <? 0 then -1 else i + 1
       end.

(** [s.replace(p, r)] for a string pattern [p]: only the first
    occurrence of [p] is replaced.  The replacement strings of the
    script contain no [$], so no replacement pattern is expanded. *)
Fixpoint replace (s p r : string) : string :=
  if String.prefix p s then r ++ drop (String.length p) s
  else match s with
       | EmptyString => EmptyString
       | String c s' => String c (replace s' p r)
       end.

(** [s.split(sep)] for a separator of one code unit.  The array is
    never empty. *)
Fixpoint split (s : string) (sep : ascii) : list string :=
  match s with
  | EmptyString => [EmptyString]
  | String c s' =>
      if Ascii.eqb c sep then EmptyString :: split s' sep
      else match split s' sep with
           | h :: t => String c h :: t
           | [] => [String c EmptyString]
           end
  end.

(** [a[0]] on an array of strings. *)
Definition at0 (a : list string) : value :=
  match a with
  | [] => Undefined
  | x :: _ => Str x
  end.

(** [s.lastIndexOf(c)] for a pattern of one code unit: index of the
    last occurrence, [-1] if none. *)
Fixpoint lastIndexOf (s : string) (c : ascii) : Z :=
  match s with
  | EmptyString => -1
  | String d s' =>
      let i := lastIndexOf s' c in
      if 0 <=? i then i + 1
      else if Ascii.eqb d c then 0 else -1
  end.

(** [s.substring(a, b)]: both indices are clamped to [0, length], and
    swapped when [a > b]. *)
Definition substring (s : string) (a b : Z) : string :=
  let len := Z.of_nat (String.length s) in
  let clamp i := Z.min (Z.max i 0) len in
  let lo := Z.min (clamp a) (clamp b) in
  let hi := Z.max (clamp a) (clamp b) in
  String.substring (Z.to_nat lo) (Z.to_nat (hi - lo)) s.

(** Decimal digits of a natural number, as [String(n)] prints them. *)
Definition digit (d : Z) : ascii := ascii_of_nat (48 + Z.to_nat d).

Fixpoint digits (fuel : nat) (n : Z) (acc : string) : string :=
  match fuel with
  | O => acc
  | S fuel' =>
      let acc' := String (digit (n mod 10)) acc in
      if n <? 10 then acc' else digits fuel' (n / 10) acc'
  end.

(** [String(n)] for an integer [n]: the fuel is the number of binary
    digits of [n], which bounds the number of decimal ones. *)
Definition number_to_string (n : Z) : string :=
  let a := Z.abs n in
  let body := digits (S (Z.to_nat (Z.log2 a))) a "" in
  if n <? 0 then "-" ++ body else body.

(** [Buffer.byteLength(s)]: the length of the UTF-8 encoding; a code
    unit below 128 takes one byte, one below 256 takes two. *)
Fixpoint byteLength (s : string) : Z :=
  match s with
  | EmptyString => 0
  | String c s' =>
      (if (nat_of_ascii c <? 128)%nat then 1 else 2) + byteLength s'
  end.

(** UTF-8 encoding of a string, byte by byte (each byte in 0..255). *)
Fixpoint utf8 (s : string) : list Z :=
  match s with
  | EmptyString => []
  | String c s' =>
      let n := Z.of_nat (nat_of_ascii c) in
      if n <? 128 then n :: utf8 s'
      else (192 + n / 64) :: (128 + n mod 64) :: utf8 s'
  end.

End JS.

(* ===================================================================== *)
(** ** The [moment] package: UTC calendar fields and [format] *)
(* ===================================================================== *)

Module Moment.

(** A moment in UTC mode is its number of milliseconds since the
    epoch, which is what [moment.utc(moment())] wraps. *)
Definition t := Z.

Definition msPerDay : Z := 86400000.

(** [m.add(n, 'seconds')]. *)
Definition add_seconds (m : t) (n : Z) : t := m + n * 1000.

(** Year, month (1..12) and day of the month of a day number counted
    from 1970-01-01, in the proleptic Gregorian calendar. *)
Definition civil_of_days (z : Z) : Z * Z * Z :=
  let z := z + 719468 in
  let era := z / 146097 in
  let doe := z - era * 146097 in
  let yoe := (doe - doe / 1460 + doe / 36524 - doe / 146096) / 365 in
  let doy := doe - (365 * yoe + yoe / 4 - yoe / 100) in
  let mp := (5 * doy + 2) / 153 in
  let d := doy - (153 * mp + 2) / 5 + 1 in
  let m := if mp <? 10 then mp + 3 else mp - 9 in
  let y := yoe + era * 400 in
  ((if m <=? 2 then y + 1 else y), m, d).

Definition year (m : t) : Z := fst (fst (civil_of_days (m / msPerDay))).
Definition month (m : t) : Z := snd (fst (civil_of_days (m / msPerDay))).
Definition date (m : t) : Z := snd (civil_of_days (m / msPerDay)).
Definition hours (m : t) : Z := (m mod msPerDay) / 3600000.
Definition minutes (m : t) : Z := (m mod 3600000) / 60000.
Definition seconds (m : t) : Z := (m mod 60000) / 1000.
Definition millisecond (m : t) : Z := m mod 1000.

Fixpoint zeros (n : nat) : string :=
  match n with
  | O => ""
  | S n' => String "0" (zeros n')
  end.

(** moment's [zeroFill(number, targetLength)] (no forced sign). *)
Definition zeroFill (number : Z) (targetLength : Z) : string :=
  let absNumber := JS.number_to_string (Z.abs number) in
  let zerosToFill := targetLength - Z.of_nat (String.length absNumber) in
  (if 0 <=? number then "" else "-")
    ++ zeros (Z.to_nat (Z.max 0 zerosToFill)) ++ absNumber.

(** The format tokens the script uses; [Lit] is a literal character
    or a bracket-escaped text such as [[T]]. *)
Inductive token : Type :=
| YYYY | MM | DD | HH | mm | ss | SSSSSSS
| Lit (s : string).

Definition format_token (m : t) (k : token) : string :=
  match k with
  | YYYY => zeroFill (year m) 4
  | MM => zeroFill (month m) 2
  | DD => zeroFill (date m) 2
  | HH => zeroFill (hours m) 2
  | mm => zeroFill (minutes m) 2
  | ss => zeroFill (seconds m) 2
  | SSSSSSS => zeroFill (millisecond m * 10000) 7
  | Lit s => s
  end.

(** [m.format(f)] for a tokenised format string. *)
Definition format (m : t) (f : list token) : string :=
  String.concat "" (map (format_token m) f).

End Moment.

(* ===================================================================== *)
(** ** The [crypto] package: HMAC-SHA512 and base64 digests *)
(* ===================================================================== *)

Module Crypto.

(** 64-bit words are integers in [0, 2^64); sums wrap around. *)
Definition w64 (x : Z) : Z := x mod 2 ^ 64.
Definition add64 (x y : Z) : Z := w64 (x + y).
Definition rotr (n x : Z) : Z :=
  Z.lor (Z.shiftr x n) (w64 (Z.shiftl x (64 - n))).
Definition not64 (x : Z) : Z := 2 ^ 64 - 1 - x.

Definition Ch (x y z : Z) : Z :=
  Z.lxor (Z.land x y) (Z.land (not64 x) z).
Definition Maj (x y z : Z) : Z :=
  Z.lxor (Z.lxor (Z.land x y) (Z.land x z)) (Z.land y z).
Definition Sigma0 (x : Z) : Z :=
  Z.lxor (Z.lxor (rotr 28 x) (rotr 34 x)) (rotr 39 x).
Definition Sigma1 (x : Z) : Z :=
  Z.lxor (Z.lxor (rotr 14 x) (rotr 18 x)) (rotr 41 x).
Definition sigma0 (x : Z) : Z :=
  Z.lxor (Z.lxor (rotr 1 x) (rotr 8 x)) (Z.shiftr x 7).
Definition sigma1 (x : Z) : Z :=
  Z.lxor (Z.lxor (rotr 19 x) (rotr 61 x)) (Z.shiftr x 6).

Definition H0 : list Z :=
  [ 0x6a09e667f3bcc908; 0xbb67ae8584caa73b; 0x3c6ef372fe94f82b; 0xa54ff53a5f1d36f1;
    0x510e527fade682d1; 0x9b05688c2b3e6c1f; 0x1f83d9abfb41bd6b; 0x5be0cd19137e2179 ].

Definition K : list Z :=
  [ 0x428a2f98d728ae22; 0x7137449123ef65cd; 0xb5c0fbcfec4d3b2f; 0xe9b5dba58189dbbc;
    0x3956c25bf348b538; 0x59f111f1b605d019; 0x923f82a4af194f9b; 0xab1c5ed5da6d8118;
    0xd807aa98a3030242; 0x12835b0145706fbe; 0x243185be4ee4b28c; 0x550c7dc3d5ffb4e2;
    0x72be5d74f27b896f; 0x80deb1fe3b1696b1; 0x9bdc06a725c71235; 0xc19bf174cf692694;
    0xe49b69c19ef14ad2; 0xefbe4786384f25e3; 0x0fc19dc68b8cd5b5; 0x240ca1cc77ac9c65;
    0x2de92c6f592b0275; 0x4a7484aa6ea6e483; 0x5cb0a9dcbd41fbd4; 0x76f988da831153b5;
    0x983e5152ee66dfab; 0xa831c66d2db43210; 0xb00327c898fb213f; 0xbf597fc7beef0ee4;
    0xc6e00bf33da88fc2; 0xd5a79147930aa725; 0x06ca6351e003826f; 0x142929670a0e6e70;
    0x27b70a8546d22ffc; 0x2e1b21385c26c926; 0x4d2c6dfc5ac42aed; 0x53380d139d95b3df;
    0x650a73548baf63de; 0x766a0abb3c77b2a8; 0x81c2c92e47edaee6; 0x92722c851482353b;
    0xa2bfe8a14cf10364; 0xa81a664bbc423001; 0xc24b8b70d0f89791; 0xc76c51a30654be30;
    0xd192e819d6ef5218; 0xd69906245565a910; 0xf40e35855771202a; 0x106aa07032bbd1b8;
    0x19a4c116b8d2d0c8; 0x1e376c085141ab53; 0x2748774cdf8eeb99; 0x34b0bcb5e19b48a8;
    0x391c0cb3c5c95a63; 0x4ed8aa4ae3418acb; 0x5b9cca4f7763e373; 0x682e6ff3d6b2b8a3;
    0x748f82ee5defb2fc; 0x78a5636f43172f60; 0x84c87814a1f0ab72; 0x8cc702081a6439ec;
    0x90befffa23631e28; 0xa4506cebde82bde9; 0xbef9a3f7b2c67915; 0xc67178f2e372532b;
    0xca273eceea26619c; 0xd186b8c721c0c207; 0xeada7dd6cde0eb1e; 0xf57d4f7fee6ed178;
    0x06f067aa72176fba; 0x0a637dc5a2c898a6; 0x113f9804bef90dae; 0x1b710b35131c471b;
    0x28db77f523047d84; 0x32caab7b40c72493; 0x3c9ebe0a15c9bebc; 0x431d67c49c100d4c;
    0x4cc5d4becb3e42b6; 0x597f299cfc657e2a; 0x5fcb6fab3ad6faec; 0x6c44198c4a475817 ].

(** Big-endian bytes of a word, and back. *)
Fixpoint be_bytes (n : nat) (x : Z) : list Z :=
  match n with
  | O => []
  | S n' => (Z.shiftr x (8 * Z.of_nat n')) mod 256 :: be_bytes n' x
  end.

Definition be_word (bs : list Z) : Z :=
  fold_left (fun acc b => acc * 256 + b) bs 0.

(** The padded message: a 1 bit, zeros up to 112 modulo 128 bytes,
    and the length in bits on 128 bits. *)
Definition pad (msg : list Z) : list Z :=
  let len := Z.of_nat (List.length msg) in
  let k := (111 - len) mod 128 in
  (msg ++ [128] ++ repeat 0 (Z.to_nat k) ++ be_bytes 16 (8 * len))%list.

(** Cuts a list into consecutive chunks of [n] elements ([fuel]
    bounds the number of chunks). *)
Fixpoint chunks {A} (fuel n : nat) (l : list A) : list (list A) :=
  match fuel, l with
  | O, _ | _, [] => []
  | S fuel', _ => firstn n l :: chunks fuel' n (skipn n l)
  end.

(** The message schedule, most recent word first: [w] holds
    W(t-1) .. W(0) and is extended by [n] words. *)
Fixpoint schedule (n : nat) (w : list Z) : list Z :=
  match n with
  | O => w
  | S n' =>
      let x := add64 (add64 (sigma1 (nth 1 w 0)) (nth 6 w 0))
                     (add64 (sigma0 (nth 14 w 0)) (nth 15 w 0)) in
      schedule n' (x :: w)
  end.

Record regs := Regs { ra : Z; rb : Z; rc : Z; rd : Z;
                      re : Z; rf : Z; rg : Z; rh : Z }.

Definition round (s : regs) (kw : Z * Z) : regs :=
  let T1 := add64 (add64 (add64 (rh s) (Sigma1 (re s)))
                         (add64 (Ch (re s) (rf s) (rg s)) (fst kw)))
                  (snd kw) in
  let T2 := add64 (Sigma0 (ra s)) (Maj (ra s) (rb s) (rc s)) in
  Regs (add64 T1 T2) (ra s) (rb s) (rc s)
       (add64 (rd s) T1) (re s) (rf s) (rg s).

Definition regs_of (h : list Z) : regs :=
  Regs (nth 0 h 0) (nth 1 h 0) (nth 2 h 0) (nth 3 h 0)
       (nth 4 h 0) (nth 5 h 0) (nth 6 h 0) (nth 7 h 0).

Definition list_of (s : regs) : list Z :=
  [ra s; rb s; rc s; rd s; re s; rf s; rg s; rh s].

(** One application of the compression function to a 128-byte block. *)
Definition compress (h : list Z) (block : list Z) : list Z :=
  let w0 := map be_word (chunks 16 8 block) in
  let w := rev (schedule 64 (rev w0)) in
  let s := fold_left round (combine K w) (regs_of h) in
  map (fun p => add64 (fst p) (snd p)) (combine h (list_of s)).

(** SHA-512 of a list of bytes: the 64 bytes of the digest. *)
Definition sha512 (msg : list Z) : list Z :=
  let p := pad msg in
  let h := fold_left compress (chunks (List.length p) 128 p) H0 in
  flat_map (be_bytes 8) h.

Definition blockSize : nat := 128.

(** HMAC (RFC 2104) over SHA-512. *)
Definition hmac_sha512 (key msg : list Z) : list Z :=
  let k0 := if (blockSize <? List.length key)%nat then sha512 key else key in
  let k := (k0 ++ repeat 0 (blockSize - List.length k0))%list in
  let ipad := map (Z.lxor 0x36) k in
  let opad := map (Z.lxor 0x5c) k in
  sha512 (opad ++ sha512 (ipad ++ msg))%list.

Definition alphabet : string :=
  "ABCDEFGHIJKLMNOPQRSTUVWXYZabcdefghijklmnopqrstuvwxyz0123456789+/".

Definition b64char (i : Z) : ascii :=
  match String.get (Z.to_nat i) alphabet with
  | Some c => c
  | None => "="%char
  end.

(** Base64 with padding, three bytes at a time. *)
Fixpoint base64 (fuel : nat) (bs : list Z) : string :=
  match fuel, bs with
  | O, _ | _, [] => ""
  | S _, [a] =>
      String (b64char (a / 4)) (String (b64char (a mod 4 * 16)) "==")
  | S _, [a; b] =>
      String (b64char (a / 4))
        (String (b64char (a mod 4 * 16 + b / 16))
           (String (b64char (b mod 16 * 4)) "="))
  | S fuel', a :: b :: c :: rest =>
      String (b64char (a / 4))
        (String (b64char (a mod 4 * 16 + b / 16))
           (String (b64char (b mod 16 * 4 + c / 64))
              (String (b64char (c mod 64)) (base64 fuel' rest))))
  end.

(** [crypto.createHmac('sha512', key).update(data).digest('base64')]:
    string arguments are taken in UTF-8. *)
Definition createHmac_sha512_base64 (key data : string) : string :=
  let d := hmac_sha512 (JS.utf8 key) (JS.utf8 data) in
  base64 (List.length d) d.

End Crypto.

(* ===================================================================== *)
(** ** [JSON.parse] *)
(* ===================================================================== *)

Module JSON.

(** Parsed values.  String contents are UTF-16 code units (an escape
    [\uXXXX] can denote any of them); a number keeps its lexeme, the
    double it denotes is not needed here; an object lists its members
    in source order (a property read takes the last one of a name). *)
#[warnings="-register-all"] Inductive json : Type :=
| JNull
| JBool (b : bool)
| JNumber (lexeme : string)
| JString (s : list Z)
| JArray (items : list json)
| JObject (members : list (list Z * json)).

Inductive token : Type :=
| TLBrace | TRBrace | TLBracket | TRBracket | TColon | TComma
| TStr (s : list Z)
| TNum (lexeme : string)
| TTrue | TFalse | TNull.

(** Where the scanner is inside a number: an optional minus sign, an
    integer part that is 0 or starts with a non-zero digit, an optional
    fraction (a dot and digits) and an optional exponent (e or E, an
    optional sign, digits). *)
Inductive num_phase : Type :=
| NMinus | NZero | NInt | NDot | NFrac | NExp | NExpSign | NExpDigits.

Inductive lex_state : Type :=
| LStart
| LString (acc : list Z)
| LEscape (acc : list Z)
| LUnicode (acc : list Z) (todo : nat) (v : Z)
| LNumber (ph : num_phase) (acc : string)
| LLiteral (rest : string) (tok : token).

Definition code (c : ascii) : Z := Z.of_nat (nat_of_ascii c).

(** The double quote. *)
Definition dquote : ascii := "034"%char.

Definition is_ws (c : ascii) : bool :=
  let n := code c in
  (n =? 32) || (n =? 9) || (n =? 10) || (n =? 13).

Definition is_digit (c : ascii) : bool :=
  let n := code c in (48 <=? n) && (n <=? 57).

Definition hex_value (c : ascii) : option Z :=
  let n := code c in
  if (48 <=? n) && (n <=? 57) then Some (n - 48)
  else if (97 <=? n) && (n <=? 102) then Some (n - 87)
  else if (65 <=? n) && (n <=? 70) then Some (n - 55)
  else None.

Definition num_accepting (ph : num_phase) : bool :=
  match ph with
  | NZero | NInt | NFrac | NExpDigits => true
  | NMinus | NDot | NExp | NExpSign => false
  end.

(** The phase after reading [c] inside a number, if [c] continues it. *)
Definition num_step (ph : num_phase) (c : ascii) : option num_phase :=
  let d := is_digit c in
  let e := (Ascii.eqb c "e" || Ascii.eqb c "E")%bool in
  match ph with
  | NMinus => if Ascii.eqb c "0" then Some NZero
              else if d then Some NInt else None
  | NZero => if Ascii.eqb c "." then Some NDot
             else if e then Some NExp else None
  | NInt => if d then Some NInt
            else if Ascii.eqb c "." then Some NDot
            else if e then Some NExp else None
  | NDot => if d then Some NFrac else None
  | NFrac => if d then Some NFrac else if e then Some NExp else None
  | NExp => if d then Some NExpDigits
            else if (Ascii.eqb c "+" || Ascii.eqb c "-")%bool
                 then Some NExpSign else None
  | NExpSign => if d then Some NExpDigits else None
  | NExpDigits => if d then Some NExpDigits else None
  end.

(** Reading [c] between two tokens; [out] is the reversed list of the
    tokens read so far. *)
Definition start_step (c : ascii) (out : list token)
  : option (lex_state * list token) :=
  if is_ws c then Some (LStart, out)
  else if Ascii.eqb c "{" then Some (LStart, TLBrace :: out)
  else if Ascii.eqb c "}" then Some (LStart, TRBrace :: out)
  else if Ascii.eqb c "[" then Some (LStart, TLBracket :: out)
  else if Ascii.eqb c "]" then Some (LStart, TRBracket :: out)
  else if Ascii.eqb c ":" then Some (LStart, TColon :: out)
  else if Ascii.eqb c "," then Some (LStart, TComma :: out)
  else if Ascii.eqb c dquote then Some (LString [], out)
  else if Ascii.eqb c "-" then Some (LNumber NMinus "-", out)
  else if Ascii.eqb c "0" then Some (LNumber NZero "0", out)
  else if is_digit c then Some (LNumber NInt (String c ""), out)
  else if Ascii.eqb c "t" then Some (LLiteral "rue" TTrue, out)
  else if Ascii.eqb c "f" then Some (LLiteral "alse" TFalse, out)
  else if Ascii.eqb c "n" then Some (LLiteral "ull" TNull, out)
  else None.

Definition escape_value (c : ascii) : option Z :=
  if Ascii.eqb c dquote then Some 34
  else if Ascii.eqb c "\" then Some 92
  else if Ascii.eqb c "/" then Some 47
  else if Ascii.eqb c "b" then Some 8
  else if Ascii.eqb c "f" then Some 12
  else if Ascii.eqb c "n" then Some 10
  else if Ascii.eqb c "r" then Some 13
  else if Ascii.eqb c "t" then Some 9
  else None.

Definition lex_step (st : lex_state) (c : ascii) (out : list token)
  : option (lex_state * list token) :=
  match st with
  | LStart => start_step c out
  | LString acc =>
      if Ascii.eqb c dquote then Some (LStart, TStr (rev acc) :: out)
      else if Ascii.eqb c "\" then Some (LEscape acc, out)
      else if code c <? 32 then None
      else Some (LString (code c :: acc), out)
  | LEscape acc =>
      if Ascii.eqb c "u" then Some (LUnicode acc 4 0, out)
      else match escape_value c with
           | Some v => Some (LString (v :: acc), out)
           | None => None
           end
  | LUnicode acc todo v =>
      match hex_value c with
      | None => None
      | Some h =>
          match todo with
          | O | S O => Some (LString (v * 16 + h :: acc), out)
          | S todo' => Some (LUnicode acc todo' (v * 16 + h), out)
          end
      end
  | LNumber ph acc =>
      match num_step ph c with
      | Some ph' => Some (LNumber ph' (acc ++ String c ""), out)
      | None =>
          if num_accepting ph then start_step c (TNum acc :: out) else None
      end
  | LLiteral rest tok =>
      match rest with
      | String d EmptyString =>
          if Ascii.eqb c d then Some (LStart, tok :: out) else None
      | String d rest' =>
          if Ascii.eqb c d then Some (LLiteral rest' tok, out) else None
      | EmptyString => None
      end
  end.

(** The tokens of a text, or [None] where the text is not a sequence
    of JSON tokens. *)
Fixpoint lex (st : lex_state) (s : string) (out : list token)
  : option (list token) :=
  match s with
  | EmptyString =>
      match st with
      | LStart => Some (rev out)
      | LNumber ph acc =>
          if num_accepting ph then Some (rev (TNum acc :: out)) else None
      | _ => None
      end
  | String c s' =>
      match lex_step st c out with
      | Some (st', out') => lex st' s' out'
      | None => None
      end
  end.

(** The containers that are open while parsing, innermost first; the
    items read so far are kept in reverse. *)
Inductive frame : Type :=
| FArr (acc : list json)
| FObj (acc : list (list Z * json)) (pending : option (list Z)).

Inductive mode : Type :=
| MValue | MArrStart | MArrNext
| MObjStart | MObjKey | MObjColon | MObjNext
| MDone (v : json).

(** A value [v] is complete: it goes into the innermost open
    container, or it is the whole text. *)
Definition push_value (v : json) (stk : list frame)
  : option (mode * list frame) :=
  match stk with
  | [] => Some (MDone v, [])
  | FArr acc :: rest => Some (MArrNext, FArr (v :: acc) :: rest)
  | FObj acc (Some k) :: rest =>
      Some (MObjNext, FObj ((k, v) :: acc) None :: rest)
  | FObj _ None :: _ => None
  end.

Definition accept_value (tok : token) (stk : list frame)
  : option (mode * list frame) :=
  match tok with
  | TStr s => push_value (JString s) stk
  | TNum n => push_value (JNumber n) stk
  | TTrue => push_value (JBool true) stk
  | TFalse => push_value (JBool false) stk
  | TNull => push_value JNull stk
  | TLBracket => Some (MArrStart, FArr [] :: stk)
  | TLBrace => Some (MObjStart, FObj [] None :: stk)
  | TRBrace | TRBracket | TColon | TComma => None
  end.

Definition close_array (stk : list frame) : option (mode * list frame) :=
  match stk with
  | FArr acc :: rest => push_value (JArray (rev acc)) rest
  | _ => None
  end.

Definition close_object (stk : list frame) : option (mode * list frame) :=
  match stk with
  | FObj acc None :: rest => push_value (JObject (rev acc)) rest
  | _ => None
  end.

Definition set_key (k : list Z) (stk : list frame)
  : option (mode * list frame) :=
  match stk with
  | FObj acc None :: rest => Some (MObjColon, FObj acc (Some k) :: rest)
  | _ => None
  end.

Definition parse_step (m : mode) (stk : list frame) (tok : token)
  : option (mode * list frame) :=
  match m, tok with
  | MValue, _ => accept_value tok stk
  | MArrStart, TRBracket => close_array stk
  | MArrStart, _ => accept_value tok stk
  | MArrNext, TComma => Some (MValue, stk)
  | MArrNext, TRBracket => close_array stk
  | MObjStart, TStr k => set_key k stk
  | MObjStart, TRBrace => close_object stk
  | MObjKey, TStr k => set_key k stk
  | MObjColon, TColon => Some (MValue, stk)
  | MObjNext, TComma => Some (MObjKey, stk)
  | MObjNext, TRBrace => close_object stk
  | _, _ => None
  end.

Fixpoint parse_tokens (m : mode) (stk : list frame) (toks : list token)
  : option json :=
  match toks with
  | [] => match m with MDone v => Some v | _ => None end
  | tok :: toks' =>
      match parse_step m stk tok with
      | Some (m', stk') => parse_tokens m' stk' toks'
      | None => None
      end
  end.

(** [JSON.parse(text)]: the value, or [None] where it throws a
    [SyntaxError]. *)
Definition parse (text : string) : option json :=
  match lex LStart text [] with
  | Some toks => parse_tokens MValue [] toks
  | None => None
  end.

End JSON.

(* ===================================================================== *)
(** ** Errors, effects and the world the script runs in *)
(* ===================================================================== *)

(** An error object, as far as the script reads it: the [code] that
    rejection objects and system errors carry, and the [message]. *)
Record error : Type := MkError { code : option string; message : string }.

(** [Error(msg)] and [new Error(msg)]. *)
Definition Error (msg : string) : error := MkError None msg.

(** A blob as [listBlobsFlat] yields it: [blob.name] and
    [blob.properties.contentType]. *)
Record blob : Type := Blob { name : string; contentType : string }.

(** A local directory tree that can be read throughout: an entry that
    is not a directory, whatever else it is, or a directory with its
    entries. *)
#[warnings="-register-all"] Inductive node : Type :=
| File
| Dir (entries : list (string * node)).

(** An entry of a directory, as [statSync] and [readdirSync] answer for
    it: one that is not a directory (a regular file, a socket, a
    device), a directory with its entries, a directory that
    [readdirSync] throws on, and an entry that [statSync] throws on,
    such as a link to nothing. *)
#[warnings="-register-all"] Inductive entry : Type :=
| Plain
| Folder (entries : list (string * entry))
| Closed (e : error)
| Lost (e : error).

(** What [readdirSync] answers for a path: the entries, or the error it
    throws (the path is missing, is not a directory, may not be
    read). *)
Inductive scan : Type :=
| Entries (entries : list (string * entry))
| ScanError (e : error).

(** The [options] object of [https.request]. *)
Record options : Type :=
  Options { port : Z; method : string; headers : list (string * string) }.

(** What the network answers to a request: a response, whose body comes
    in chunks, or an [error] event. *)
Inductive reply : Type :=
| Response (statusCode : Z) (statusMessage : string) (chunks : list string)
| NetError (e : error).

(** The calls that leave the process. *)
Inductive effect : Type :=
| HttpsRequest (url : string) (o : options)
| ReqWrite (body : string)
| ReqEnd
| NewBlobServiceClient (url : string)
| GetContainerClient (container : string)
| Mkdir (path : string) (recursive : bool)
| DownloadToFile (blobName : string) (path : string)
| UploadFile (blobKey : JS.value) (fileName : string)
             (blobContentType : JS.value)
| DeleteBlob (blobName : string).

(** The world of one run: the clock, which calls throw (given the calls
    made before), what the container lists (a lazily paged listing can
    fail after some blobs), what the disk holds at a path, and what the
    network answers. *)
Record world : Type := World {
  clock : Z;
  fails : list effect -> effect -> option error;
  listing : list blob;
  listing_error : option error;
  disk : string -> scan;
  network : string -> options -> reply
}.

(** The tree of an entry of which every part can be read. *)
Fixpoint readable (t : entry) : option node :=
  match t with
  | Plain => Some File
  | Folder entries =>
      match
        (fix each (es : list (string * entry))
           : option (list (string * node)) :=
           match es with
           | [] => Some []
           | (f, c) :: rest =>
               match readable c, each rest with
               | Some n, Some ns => Some ((f, n) :: ns)
               | _, _ => None
               end
           end) entries
      with
      | Some ns => Some (Dir ns)
      | None => None
      end
  | Closed _ | Lost _ => None
  end.

(** The local tree at a path: there is one when the path is a
    directory of which every part can be read. *)
Definition local (w : world) (dir : string) : option node :=
  match disk w dir with
  | Entries entries => readable (Folder entries)
  | ScanError _ => None
  end.

(** Computations: they extend the log of calls and return or throw. *)
Inductive result (A : Type) : Type :=
| Return (a : A)
| Throw (e : error).
Arguments Return {A} a.
Arguments Throw {A} e.

Definition M (A : Type) : Type := list effect -> result A * list effect.

Definition ret {A} (a : A) : M A := fun tr => (Return a, tr).

Definition throw {A} (e : error) : M A := fun tr => (Throw e, tr).

Definition bind {A B} (m : M A) (k : A -> M B) : M B :=
  fun tr =>
    match m tr with
    | (Return a, tr') => k a tr'
    | (Throw e, tr') => (Throw e, tr')
    end.

(** [try { m } catch (error) { h error }]. *)
Definition try_catch {A} (m : M A) (h : error -> M A) : M A :=
  fun tr =>
    match m tr with
    | (Return a, tr') => (Return a, tr')
    | (Throw e, tr') => h e tr'
    end.

Declare Scope js_scope.
Delimit Scope js_scope with js.
Notation "x <- m ;; k" := (bind m (fun x => k))
  (at level 61, m at next level, right associativity) : js_scope.
Notation "m ;; k" := (bind m (fun _ => k))
  (at level 61, right associativity) : js_scope.

(** [for (const x of l) { body x }], one iteration after the other. *)
Fixpoint for_of {A} (l : list A) (body : A -> M unit) : M unit :=
  match l with
  | [] => ret tt
  | x :: l' => bind (body x) (fun _ => for_of l' body)
  end.

(** The log and the result of a computation started on an empty log. *)
Definition run {A} (m : M A) : result A * list effect := m [].

Definition newline : string := String "010" "".

Definition blobStorageContainer : string := "content".

(** The format string of [generateSASToken],
    [YYYY-MM-DD[T]HH:mm:ss.SSSSSSS[Z]], token by token. *)
Definition expiryFormat : list Moment.token :=
  [ Moment.YYYY; Moment.Lit "-"; Moment.MM; Moment.Lit "-"; Moment.DD;
    Moment.Lit "T"; Moment.HH; Moment.Lit ":"; Moment.mm; Moment.Lit ":";
    Moment.ss; Moment.Lit "."; Moment.SSSSSSS; Moment.Lit "Z" ].

(** A command-line argument that was not given is [undefined]. *)
Definition arg (a : option string) : JS.value :=
  match a with
  | None => JS.Undefined
  | Some s => JS.Str s
  end.

(** The string of an argument that passes a test [if (a)]: it was
    given and is not empty. *)
Definition given (a : option string) : option string :=
  match a with
  | Some s => if JS.truthy (arg a) then Some s else None
  | None => None
  end.

(** What the promise returned by [request] comes to: it resolves with a
    parsed body or with the body itself, it rejects, or the listener of
    the [end] event throws and the promise is never settled. *)
Inductive body_value : Type :=
| Parsed (j : JSON.json)
| Text (s : string).

Inductive outcome : Type :=
| Resolved (v : body_value)
| Rejected (e : error)
| Uncaught (e : error).

(** The [SyntaxError] of [JSON.parse]; its message depends on the
    engine and is left out. *)
Definition SyntaxError : error := MkError None "SyntaxError".

(** What the promise of an [async] function comes to: it is fulfilled,
    it is rejected, or it stays pending for ever, because a promise the
    function awaits is never settled (a listener threw [e]). *)
Inductive completion (A : Type) : Type :=
| Fulfilled (a : A)
| Failed (e : error)
| Pending (e : error).
Arguments Fulfilled {A} a.
Arguments Failed {A} e.
Arguments Pending {A} e.

Definition Async (A : Type) : Type := list effect -> completion A * list effect.

Definition async_ret {A} (a : A) : Async A := fun tr => (Fulfilled a, tr).

Definition async_throw {A} (e : error) : Async A := fun tr => (Failed e, tr).

Definition async_bind {A B} (m : Async A) (k : A -> Async B) : Async B :=
  fun tr =>
    match m tr with
    | (Fulfilled a, tr') => k a tr'
    | (Failed e, tr') => (Failed e, tr')
    | (Pending e, tr') => (Pending e, tr')
    end.

(** [try { m } catch (error) { h error }] in an [async] function: a
    rejection of an awaited promise is caught; a promise that is never
    settled is not. *)
Definition async_try {A} (m : Async A) (h : error -> Async A) : Async A :=
  fun tr =>
    match m tr with
    | (Failed e, tr') => h e tr'
    | r => r
    end.

(** [await m] for an [async] function [m] that returns or throws. *)
Definition await_call {A} (m : M A) : Async A :=
  fun tr =>
    match m tr with
    | (Return a, tr') => (Fulfilled a, tr')
    | (Throw e, tr') => (Failed e, tr')
    end.

(** [await request(...)]. *)
Definition await_request (p : M outcome) : Async body_value :=
  fun tr =>
    match p tr with
    | (Return (Resolved v), tr') => (Fulfilled v, tr')
    | (Return (Rejected e), tr') => (Failed e, tr')
    | (Return (Uncaught e), tr') => (Pending e, tr')
    | (Throw e, tr') => (Failed e, tr')
    end.

(** The code units of a string. *)
Definition codeUnits (s : string) : list Z :=
  map JSON.code (list_ascii_of_string s).

Fixpoint sameUnits (a b : list Z) : bool :=
  match a, b with
  | [], [] => true
  | x :: a', y :: b' => (x =? y) && sameUnits a' b'
  | _, _ => false
  end.

(** The member [key] of a parsed object: the last one of that name. *)
Fixpoint member (key : list Z) (ms : list (list Z * JSON.json))
  : option JSON.json :=
  match ms with
  | [] => None
  | (k, v) :: rest =>
      match member key rest with
      | Some v' => Some v'
      | None => if sameUnits k key then Some v else None
      end
  end.

(** [response.containerSasUrl] on what [request] resolves with; [None]
    is [undefined].  A string, an array, a number and a boolean have no
    such property; reading it on [null] throws a [TypeError]. *)
Definition containerSasUrl (response : body_value)
  : result (option JSON.json) :=
  match response with
  | Text _ => Return None
  | Parsed (JSON.JObject ms) => Return (member (codeUnits "containerSasUrl") ms)
  | Parsed JSON.JNull => Throw (MkError None "TypeError")
  | Parsed _ => Return None
  end.

(** The address [getStorageSasToken] posts to. *)
Definition listSecretsUrl (managementApiEndpoint : string) : string :=
  "https://" ++ managementApiEndpoint
    ++ "/subscriptions/00000/resourceGroups/00000/providers/Microsoft.ApiManagement/service/00000/portalSettings/mediaContent/listSecrets?api-version=2019-12-01".

(** A small excerpt of the registry of the [mime-types] package, for
    running the functions below on examples. *)
Module Registry.

(** Default extension of a content type. *)
Definition extensions (type : string) : option string :=
  if (type =? "image/png")%string then Some "png"
  else if (type =? "image/jpeg")%string then Some "jpeg"
  else if (type =? "image/svg+xml")%string then Some "svg"
  else if (type =? "text/plain")%string then Some "txt"
  else if (type =? "application/json")%string then Some "json"
  else if (type =? "application/octet-stream")%string then Some "bin"
  else None.

(** The text after the last dot of the last segment of a path, when
    that segment has a dot that is not its first character. *)
Definition extname (path : string) : option string :=
  let base := JS.drop (Z.to_nat (JS.lastIndexOf path "/" + 1)) path in
  let i := JS.lastIndexOf base "." in
  if 0 <? i then Some (JS.drop (Z.to_nat (i + 1)) base) else None.

(** Content type of a file name, by its extension. *)
Definition types (path : string) : option string :=
  match extname path with
  | None => None
  | Some e =>
      if (e =? "png")%string then Some "image/png"
      else if ((e =? "jpeg") || (e =? "jpg"))%string then Some "image/jpeg"
      else if (e =? "svg")%string then Some "image/svg+xml"
      else if (e =? "txt")%string then Some "text/plain"
      else if (e =? "json")%string then Some "application/json"
      else if (e =? "bin")%string then Some "application/octet-stream"
      else None
  end.

(** [path.resolve] in a process whose working directory is [/work],
    for relative paths without [.] or [..] segments. *)
Definition resolve (path : string) : string :=
  if String.prefix "/" path then path else "/work/" ++ path.

End Registry.

(** The checks the [yargs] package makes for the table of options of
    [publish.js], on options that are absent or have a value that is
    not empty: [destId] and [destKey] imply each other, and each of
    them conflicts with [destToken]. *)
Module Yargs.

Definition has (a : option string) : bool :=
  match a with
  | Some _ => true
  | None => false
  end.

Definition accepts (destToken destId destKey publishEndpoint : option string)
  : bool :=
  Bool.eqb (has destId) (has destKey)
  && negb (has destToken && (has destId || has destKey)).

End Yargs.

(** Worlds to run the functions in. *)
Module Sample.

(** 2020-09-13T12:26:40.123Z. *)
Definition now : Z := 1600000000123.

Definition never (tr : list effect) (c : effect) : option error := None.

Definition ok : reply := Response 200 "OK" ["OK"].

Definition containerUrl : string :=
  "https://acct.blob.core.windows.net/content?sv=1".

(** What [readdirSync] throws on a path that does not exist. *)
Definition missing (dir : string) : scan :=
  ScanError
    (MkError (Some "ENOENT")
       ("ENOENT: no such file or directory, scandir '" ++ dir ++ "'")).

(** One blob in the container, its file under [media]; no call
    throws. *)
Definition calm : world :=
  World now never [Blob "a/b" "image/png"] None
    (fun dir =>
       if (dir =? "media")%string
       then Entries [("a", Folder [("b.png", Plain)])]
       else missing dir)
    (fun _ _ => ok).

(** A world whose network answers [r]. *)
Definition answering (r : reply) : world :=
  World now never [] None missing (fun _ _ => r).

(** Three blobs and three files; the transfer or the deletion of the
    second one throws [e]. *)
Definition onSecond (e : error) (tr : list effect) (c : effect)
  : option error :=
  match c with
  | DownloadToFile n _ | DeleteBlob n =>
      if (n =? "two")%string then Some e else None
  | UploadFile _ f _ =>
      if (f =? "media/two.png")%string then Some e else None
  | _ => None
  end.

Definition threeBlobs (e : error) : world :=
  World now (onSecond e)
    [Blob "one" "image/png"; Blob "two" "image/png"; Blob "three" "image/png"]
    None
    (fun dir =>
       if (dir =? "media")%string
       then Entries [("one.png", Plain); ("two.png", Plain);
                     ("three.png", Plain)]
       else missing dir)
    (fun _ _ => ok).

(** A blob whose content type the registry does not know, and a file
    whose extension it does not know. *)
Definition unknownType : world :=
  World now never [Blob "c" "application/x-nothing"] None
    (fun dir =>
       if (dir =? "media")%string
       then Entries [("c.zzz", Plain)]
       else missing dir)
    (fun _ _ => ok).

End Sample.

(** More worlds. *)
Module Fixture.

(** The double quote, as a string. *)
Definition q : string := String "034" "".

(** The body [{"containerSasUrl":"<url>"}]. *)
Definition secretsBody : string :=
  "{" ++ q ++ "containerSasUrl" ++ q ++ ":" ++ q ++ Sample.containerUrl ++ q
      ++ "}".

(** The management API answers with the address of the container, in
    two chunks. *)
Definition secrets : world :=
  Sample.answering (Response 200 "OK" ["{"; JS.drop 1 secretsBody]).

(** A folder with a file, a folder in it with a file and an empty
    folder. *)
Definition entries : list (string * node) :=
  [ ("a", Dir [("b.png", File); ("none", Dir [])]); ("c", File) ].

Definition nested : world :=
  World Sample.now Sample.never [] None
    (fun dir =>
       if (dir =? "media")%string
       then Entries [ ("a", Folder [("b.png", Plain); ("none", Folder [])]);
                      ("c", Plain) ]
       else Sample.missing dir)
    (fun _ _ => Sample.ok).

(** What [statSync] throws on a link to nothing. *)
Definition noTarget (file : string) : error :=
  MkError (Some "ENOENT")
    ("ENOENT: no such file or directory, stat '" ++ file ++ "'").

(** A folder with a file, a link to nothing and another file. *)
Definition dangling : world :=
  World Sample.now Sample.never [] None
    (fun dir =>
       if (dir =? "media")%string
       then Entries [ ("a.png", Plain); ("link", Lost (noTarget "media/link"));
                      ("z.png", Plain) ]
       else Sample.missing dir)
    (fun _ _ => Sample.ok).

(** The same instant as [Sample.now], one millisecond later. *)
Definition later : world :=
  World (Sample.now + 1) Sample.never [] None Sample.missing
    (fun _ _ => Sample.ok).

End Fixture.

(* ===================================================================== *)
(** ** The functions of the script *)
(* ===================================================================== *)

Local Open Scope js_scope.

Section Script.

(** The registry of the [mime-types] package: the default extension
    of a content type, and the content type of a file name (found by
    its extension). *)
Variable extensions : string -> option string.
Variable types : string -> option string.

(** [path.resolve], which depends on the working directory. *)
Variable path_resolve : string -> string.

(** The verdict of the [yargs] package on the options of the command
    line, which it checks against the table of [publish.js] ([implies],
    [conflicts]) while the module is loaded: it lets them pass, or it
    ends the process before [run] is called. *)
Variable yargs_accepts :
  option string -> option string -> option string -> option string -> bool.

Variable w : world.

(** [mime.extension(type)]: the functions of the package return
    [false] where the registry has no entry. *)
Definition mime_extension (type : string) : JS.value :=
  match extensions type with
  | Some e => JS.Str e
  | None => JS.Bool false
  end.

(** [mime.lookup(path)]. *)
Definition mime_lookup (path : string) : JS.value :=
  match types path with
  | Some t => JS.Str t
  | None => JS.Bool false
  end.

(** A call that leaves the process: it is logged, and throws where
    the world says so. *)
Definition perform (e : effect) : M unit :=
  fun tr =>
    match fails w tr e with
    | Some err => (Throw err, tr ++ [e])%list
    | None => (Return tt, tr ++ [e])%list
    end.

(** What [listFilesInDirectory] collects for the entry [file] of a
    tree that can be read throughout: the entry itself when it is not a
    directory, and otherwise what the recursive call collects, which
    visits the entries of the directory in order, each under the name
    [file + "/" + entry]. *)
Fixpoint listFiles (file : string) (n : node) : list string :=
  match n with
  | File => [file]
  | Dir entries =>
      (fix each (es : list (string * node)) : list string :=
         match es with
         | [] => []
         | (f, c) :: rest =>
             (listFiles (file ++ "/" ++ f) c ++ each rest)%list
         end) entries
  end.

(** The callback of [forEach] on the entry [file]: [statSync] throws,
    or the entry is pushed, or it is a directory and the recursive call
    reads it, which throws where [readdirSync] does and otherwise
    visits its entries in order, up to the first one that throws. *)
Fixpoint visit (file : string) (t : entry) : result (list string) :=
  match t with
  | Lost e => Throw e
  | Plain => Return [file]
  | Closed e => Throw e
  | Folder entries =>
      (fix each (es : list (string * entry)) : result (list string) :=
         match es with
         | [] => Return []
         | (f, c) :: rest =>
             match visit (file ++ "/" ++ f) c with
             | Throw e => Throw e
             | Return found =>
                 match each rest with
                 | Throw e => Throw e
                 | Return more => Return (found ++ more)%list
                 end
             end
         end) entries
  end.

(** [listFilesInDirectory(dir)]: [readdirSync(dir)] throws, or the
    entries are visited.  Reading the disk leaves no trace in the log
    of calls. *)
Definition listFilesInDirectory (dir : string) : M (list string) :=
  match disk w dir with
  | ScanError e => throw e
  | Entries entries =>
      match visit dir (Folder entries) with
      | Return results => ret results
      | Throw e => throw e
      end
  end.

(** [generateSASToken(id, key, expiresIn = 3600)]; [moment()] reads
    the clock. *)
Definition generateSASToken (id key : string) (expiresIn : option Z)
  : M string :=
  let expiresIn := match expiresIn with Some n => n | None => 3600 end in
  let now : Moment.t := clock w in
  let expiry := Moment.add_seconds now expiresIn in
  let expiryString := Moment.format expiry expiryFormat in
  let dataToSign := id ++ newline ++ expiryString in
  let signedData := Crypto.createHmac_sha512_base64 key dataToSign in
  ret ("SharedAccessSignature uid=" ++ id ++ "&ex=" ++ expiryString
         ++ "&sn=" ++ signedData).

(** [getTokenOrThrow(token, id, key)]. *)
Definition getTokenOrThrow (token id key : option string) : M string :=
  match given token with
  | Some t => ret t
  | None =>
      match given id, given key with
      | Some i, Some k => generateSASToken i k None
      | _, _ =>
          throw (Error "You need to specify either: token or id AND key")
      end
  end.

(** The listener of the [end] event in [request]: [data] is the
    body received, [url] the address requested. *)
Definition on_end (url : string) (statusCode : Z) (statusMessage : string)
           (data : string) : outcome :=
  if (statusCode =? 200) || (statusCode =? 201) then
    if JS.startsWith data "{" then
      match JSON.parse data with
      | Some j => Resolved (Parsed j)
      | None => Uncaught SyntaxError
      end
    else Resolved (Text data)
  else if statusCode =? 404 then
    Rejected (MkError (Some "NotFound") ("Resource not found: " ++ url))
  else if statusCode =? 401 then
    Rejected (MkError (Some "Unauthorized")
      "Unauthorized. Make sure you correctly specified management API access token before running the script.")
  else if statusCode =? 403 then
    Rejected (MkError (Some "Forbidden")
      "Looks like you are not allowed to perform this operation. Please check with your administrator.")
  else
    Rejected (MkError (Some "UnhandledError")
      ("Could not complete request to " ++ url ++ ". Status: "
         ++ JS.number_to_string statusCode ++ " " ++ statusMessage)).

(** How the promise of [request] is settled by what the network
    answers: the chunks of a response are appended to [data]; an
    [error] event rejects with the error it carries. *)
Definition settle (url : string) (r : reply) : outcome :=
  match r with
  | Response statusCode statusMessage chunks =>
      on_end url statusCode statusMessage (String.concat "" chunks)
  | NetError e => Rejected e
  end.

(** The [options] that [request] passes to [https.request]: the
    headers get a [Content-Length] when a body is given. *)
Definition requestOptions (method accessToken : string)
           (body : option string) : options :=
  let headers :=
    [ ("If-Match", "*");
      ("Content-Type", "application/json");
      ("Authorization", accessToken) ] in
  let headers :=
    match given body with
    | Some b =>
        (headers
           ++ [("Content-Length", JS.number_to_string (JS.byteLength b))])%list
    | None => headers
    end in
  Options 443 method headers.

(** [request(method, url, accessToken, body)]: the calls it makes
    ([https.request], [req.write] when a body is given, [req.end]) and
    what its promise comes to. *)
Definition request (method url accessToken : string) (body : option string)
  : M outcome :=
  fun tr =>
    let options := requestOptions method accessToken body in
    let written :=
      match given body with
      | Some b => [ReqWrite b]
      | None => []
      end in
    (Return (settle url (network w url options)),
     (tr ++ [HttpsRequest url options] ++ written ++ [ReqEnd])%list).

(** [for await (const blob of containerClient.listBlobsFlat())]: the
    blobs are handled one after the other as they are listed, and an
    error of the listing is thrown where it occurs, after the blobs
    listed before it. *)
Definition listingEnd : M unit :=
  match listing_error w with
  | Some e => throw e
  | None => ret tt
  end.

Definition for_await_blobs (body : blob -> M unit) : M unit :=
  for_of (listing w) body ;; listingEnd.

(** The path [downloadBlobs] writes a blob to. *)
Definition pathToFile (snapshotMediaFolder : string) (b : blob) : string :=
  let extension := mime_extension (contentType b) in
  if JS.loose_ne_null extension then
    snapshotMediaFolder ++ "/" ++ name b ++ "." ++ JS.to_string extension
  else
    snapshotMediaFolder ++ "/" ++ name b.

(** [pathToFile.substring(0, pathToFile.lastIndexOf("/"))]. *)
Definition folderPath (pathToFile : string) : string :=
  JS.substring pathToFile 0 (JS.lastIndexOf pathToFile "/").

(** The blob service address that the three operations derive from
    the container address. *)
Definition serviceUrl (blobStorageUrl : string) : string :=
  JS.replace blobStorageUrl ("/" ++ blobStorageContainer) "".

Definition downloadBlobs (blobStorageUrl snapshotMediaFolder : string)
  : M unit :=
  try_catch
    (perform (NewBlobServiceClient (serviceUrl blobStorageUrl)) ;;
     perform (GetContainerClient blobStorageContainer) ;;
     perform (Mkdir (path_resolve snapshotMediaFolder) true) ;;
     for_await_blobs (fun b =>
       let pathToFile := pathToFile snapshotMediaFolder b in
       perform (Mkdir (path_resolve (folderPath pathToFile)) true) ;;
       perform (DownloadToFile (name b) pathToFile)))
    (fun error =>
       throw (Error ("Unable to download media files. " ++ message error))).

(** The key and the content type [uploadBlobs] gives to a file. *)
Definition blobKey (localMediaFolder fileName : string) : JS.value :=
  JS.at0 (JS.split (JS.replace fileName (localMediaFolder ++ "/") "") ".").

Definition uploadContentType (fileName : string) : JS.value :=
  JS.or (mime_lookup fileName) (JS.Str "application/octet-stream").

Definition uploadBlobs (blobStorageUrl localMediaFolder : string)
  : M unit :=
  try_catch
    (perform (NewBlobServiceClient (serviceUrl blobStorageUrl)) ;;
     perform (GetContainerClient blobStorageContainer) ;;
     fileNames <- listFilesInDirectory localMediaFolder ;;
     for_of fileNames (fun fileName =>
       perform (UploadFile (blobKey localMediaFolder fileName) fileName
                  (uploadContentType fileName))))
    (fun error =>
       throw (Error ("Unable to upload media files. " ++ message error))).

Definition deleteBlobs (blobStorageUrl : string) : M unit :=
  try_catch
    (perform (NewBlobServiceClient (serviceUrl blobStorageUrl)) ;;
     perform (GetContainerClient blobStorageContainer) ;;
     for_await_blobs (fun b => perform (DeleteBlob (name b))))
    (fun error =>
       throw (Error ("Unable to delete media files. " ++ message error))).

(** [perform] on each call of a list, in order. *)
Definition perform_all (plan : list effect) : M unit := for_of plan perform.

(** The two calls [downloadBlobs] makes for a blob. *)
Definition downloadCalls (snapshotMediaFolder : string) (b : blob)
  : list effect :=
  let pathToFile := pathToFile snapshotMediaFolder b in
  [ Mkdir (path_resolve (folderPath pathToFile)) true;
    DownloadToFile (name b) pathToFile ].

(** The call [uploadBlobs] makes for a file. *)
Definition uploadCall (localMediaFolder fileName : string) : effect :=
  UploadFile (blobKey localMediaFolder fileName) fileName
    (uploadContentType fileName).

(** The calls that open the container, common to the three
    operations. *)
Definition openContainer (blobStorageUrl : string) : list effect :=
  [ NewBlobServiceClient (serviceUrl blobStorageUrl);
    GetContainerClient blobStorageContainer ].

(** The calls each operation makes, in order, when none of them
    throws. *)
Definition downloadPlan (blobStorageUrl snapshotMediaFolder : string)
  : list effect :=
  (openContainer blobStorageUrl
     ++ [Mkdir (path_resolve snapshotMediaFolder) true]
     ++ flat_map (downloadCalls snapshotMediaFolder) (listing w))%list.

Definition uploadPlan (blobStorageUrl localMediaFolder : string)
           (fileNames : list string) : list effect :=
  (openContainer blobStorageUrl
     ++ map (uploadCall localMediaFolder) fileNames)%list.

Definition deletePlan (blobStorageUrl : string) : list effect :=
  (openContainer blobStorageUrl
     ++ map (fun b => DeleteBlob (name b)) (listing w))%list.

(** No code unit of [s] is [c]. *)
Fixpoint lacks (c : ascii) (s : string) : bool :=
  match s with
  | EmptyString => true
  | String d s' => negb (Ascii.eqb d c) && lacks c s'
  end.

(** How many [https.request] calls a log has. *)
Fixpoint httpsRequests (tr : list effect) : nat :=
  match tr with
  | [] => O
  | HttpsRequest _ _ :: tr' => S (httpsRequests tr')
  | _ :: tr' => httpsRequests tr'
  end.

(** Exactly [n] decimal digits of [x], the most significant first. *)
Fixpoint fixed (n : nat) (x : Z) : string :=
  match n with
  | O => ""
  | S n' => fixed n' (x / 10) ++ String (JS.digit (x mod 10)) ""
  end.

(** In a run that makes the calls of [plan] in order, the call of
    index [k] is the first one to throw, and it throws [e]. *)
Definition first_failure (plan : list effect) (k : nat) (e : error) : Prop :=
  exists c,
    nth_error plan k = Some c /\
    fails w (firstn k plan) c = Some e /\
    forall i c', (i < k)%nat -> nth_error plan i = Some c' ->
                 fails w (firstn i plan) c' = None.

(** No call of [plan] throws. *)
Definition no_failure (plan : list effect) : Prop :=
  forall i c, nth_error plan i = Some c -> fails w (firstn i plan) c = None.

(** An instant written as [YYYY-MM-DDTHH:mm:ss.fffffffZ], every field
    with its fixed number of digits. *)
Definition fixedWidthTimestamp (m : Moment.t) : string :=
  fixed 4 (Moment.year m) ++ "-" ++ fixed 2 (Moment.month m) ++ "-"
    ++ fixed 2 (Moment.date m) ++ "T" ++ fixed 2 (Moment.hours m) ++ ":"
    ++ fixed 2 (Moment.minutes m) ++ ":" ++ fixed 2 (Moment.seconds m)
    ++ "." ++ fixed 3 (Moment.millisecond m) ++ "0000" ++ "Z".

(** [zeroFill] and [fixed] print [g x] alike. *)
Definition agree (width : Z) (n : nat) (g : Z -> Z) (x : nat) : bool :=
  (Moment.zeroFill (g (Z.of_nat x)) width =? fixed n (g (Z.of_nat x)))%string.

(** The first instants of the years 0 and 10000, in milliseconds. *)
Definition year0 : Z := -62167219200000.
Definition year10000 : Z := 253402300800000.

(** A log that starts by opening the container [content] of the
    service derived from [blobStorageUrl]: the client of the service
    is made first and, unless that throws, the client of the container
    next. *)
Definition opensContainer (blobStorageUrl : string) (tr : list effect)
  : Prop :=
  exists rest,
    tr = NewBlobServiceClient (serviceUrl blobStorageUrl) :: rest /\
    (fails w [] (NewBlobServiceClient (serviceUrl blobStorageUrl)) = None ->
     exists rest', rest = GetContainerClient "content" :: rest').

(* ------------------------------------------------------------------- *)
(** *** The callers of [request], and the script *)

(** [getStorageSasToken(managementApiEndpoint, managementApiAccessToken)]. *)
Definition getStorageSasToken
           (managementApiEndpoint managementApiAccessToken : string)
  : Async (option JSON.json) :=
  async_bind
    (await_request
       (request "POST" (listSecretsUrl managementApiEndpoint)
          managementApiAccessToken None))
    (fun response =>
       match containerSasUrl response with
       | Return v => async_ret v
       | Throw e => async_throw e
       end).

(** [getStorageSasTokenOrThrow(managementApiEndpoint,
    managementApiAccessToken)]. *)
Definition getStorageSasTokenOrThrow
           (managementApiEndpoint : string)
           (managementApiAccessToken : option string)
  : Async (option JSON.json) :=
  match given managementApiAccessToken with
  | Some t => getStorageSasToken managementApiEndpoint t
  | None => async_throw (Error "Storage connection could not be retrieved")
  end.

(** The address [publish] posts to; an endpoint that is [undefined] is
    written out by the template. *)
Definition publishUrl (endpoint : option string) : string :=
  "https://" ++ JS.to_string (arg endpoint) ++ "/publish".

(** [publish(endpoint, token)]. *)
Definition publish (endpoint : option string) (token : string) : Async unit :=
  async_try
    (async_bind
       (await_request (request "POST" (publishUrl endpoint) token None))
       (fun _ => async_ret tt))
    (fun error =>
       async_throw
         (Error ("Unable to schedule website publishing. " ++ message error))).

(** [run()] of [publish.js], on the arguments the command line gave
    (the name [run] is taken above).  The assignment to [process.env]
    is not a call and leaves no trace in the log. *)
Definition runScript (destToken destId destKey publishEndpoint : option string)
  : Async unit :=
  async_try
    (async_bind
       (await_call (getTokenOrThrow destToken destId destKey))
       (fun destManagementApiAccessToken =>
          publish publishEndpoint destManagementApiAccessToken))
    (fun error =>
       async_throw (Error ("Unable to complete migration. " ++ message error))).

(** How the script ends: [yargs] ends the process before [run] is
    called; it prints [DONE]; it prints the message of the error and
    sets the exit code 1; or the promise of [run] stays pending, the
    exception [e] being uncaught. *)
Inductive ending : Type :=
| Refused
| Done
| ExitCode1 (printed : string)
| UncaughtException (e : error).

(** [publish.js] from the options of the command line on: the checks
    of [yargs], and then the last statement,
    [run().then(...).catch(...)]. *)
Definition script (destToken destId destKey publishEndpoint : option string)
  : list effect -> ending * list effect :=
  fun tr =>
    if yargs_accepts destToken destId destKey publishEndpoint then
      match runScript destToken destId destKey publishEndpoint tr with
      | (Fulfilled _, tr') => (Done, tr')
      | (Failed e, tr') => (ExitCode1 (message e), tr')
      | (Pending e, tr') => (UncaughtException e, tr')
      end
    else (Refused, tr).

(* ------------------------------------------------------------------- *)
(** *** Notions used to state properties *)

(** The number of entries of a tree that are not directories. *)
Fixpoint countFiles (n : node) : nat :=
  match n with
  | File => 1%nat
  | Dir entries =>
      (fix each (es : list (string * node)) : nat :=
         match es with
         | [] => O
         | (_, c) :: rest => (countFiles c + each rest)%nat
         end) entries
  end.

(** The files [uploadBlobs] finds under a folder: none when the folder
    is not a directory that can be read throughout. *)
Definition localFiles (localMediaFolder : string) : list string :=
  match local w localMediaFolder with
  | Some (Dir entries) => listFiles localMediaFolder (Dir entries)
  | _ => []
  end.

(** The kinds of calls. *)
Definition opening (c : effect) : bool :=
  match c with
  | NewBlobServiceClient _ | GetContainerClient _ => true
  | _ => false
  end.

Definition downloading (c : effect) : bool :=
  match c with
  | Mkdir _ true | DownloadToFile _ _ => true
  | _ => opening c
  end.

Definition uploading (c : effect) : bool :=
  match c with
  | UploadFile _ _ _ => true
  | _ => opening c
  end.

Definition deleting (c : effect) : bool :=
  match c with
  | DeleteBlob _ => true
  | _ => opening c
  end.

(** While [JSON.parse] reads a text that starts with an opening brace:
    the outermost open container is an object, or the whole value has
    been read and is an object. *)
Fixpoint objectAtBottom (stk : list JSON.frame) : bool :=
  match stk with
  | [] => false
  | f :: rest =>
      match rest with
      | [] => match f with JSON.FObj _ _ => true | JSON.FArr _ => false end
      | _ :: _ => objectAtBottom rest
      end
  end.

Definition readingObject (m : JSON.mode) (stk : list JSON.frame) : bool :=
  match m with
  | JSON.MDone (JSON.JObject _) => true
  | JSON.MDone _ => false
  | _ => objectAtBottom stk
  end.

(** The day number of a date of the proleptic Gregorian calendar,
    counted from 1970-01-01. *)
Definition days_of_civil (y m d : Z) : Z :=
  let y' := if m <=? 2 then y - 1 else y in
  let era := y' / 400 in
  let yoe := y' - era * 400 in
  let mp := if 2 <? m then m - 3 else m + 9 in
  let doy := (153 * mp + 2) / 5 + d - 1 in
  let doe := yoe * 365 + yoe / 4 - yoe / 100 + doy in
  era * 146097 + doe - 719468.

(* ------------------------------------------------------------------- *)
(** *** Strings *)

Lemma prefix_app (p r : string) : String.prefix p (p ++ r) = true.
Proof.
  induction p as [|c p IH]; simpl.
  - destruct r; reflexivity.
  - destruct (ascii_dec c c) as [_|n]; [exact IH | contradiction].
Qed.

Lemma drop_app (p r : string) : JS.drop (String.length p) (p ++ r) = r.
Proof. induction p as [|c p IH]; simpl; [reflexivity | exact IH]. Qed.

Lemma append_assoc (a b c : string) : (a ++ b) ++ c = a ++ (b ++ c).
Proof. induction a as [|x a IH]; simpl; [reflexivity | now rewrite IH]. Qed.

Lemma append_nil_r (a : string) : a ++ "" = a.
Proof. induction a as [|x a IH]; simpl; [reflexivity | now rewrite IH]. Qed.

Lemma length_app (a b : string) :
  String.length (a ++ b) = (String.length a + String.length b)%nat.
Proof. induction a as [|x a IH]; simpl; [reflexivity | now rewrite IH]. Qed.

(** Removing a prefix with [replace]. *)
Lemma replace_prefix (p r : string) : JS.replace (p ++ r) p "" = r.
Proof.
  destruct p as [|c p].
  - destruct r; reflexivity.
  - cbn [JS.replace append].
    change (String c (p ++ r)) with (String c p ++ r).
    rewrite prefix_app. cbn [append]. apply (drop_app (String c p)).
Qed.

Lemma indexOf_ge (s p : string) : -1 <= JS.indexOf s p.
Proof.
  induction s as [|c s IH].
  - simpl. destruct p; simpl; lia.
  - cbn [JS.indexOf]. destruct (String.prefix p (String c s)); [lia|].
    destruct (Z.ltb_spec (JS.indexOf s p) 0); lia.
Qed.

(** [replace] leaves a string without occurrence as it is. *)
Lemma replace_absent (s p r : string) :
  JS.indexOf s p = -1 -> JS.replace s p r = s.
Proof.
  induction s as [|c s IH]; cbn [JS.indexOf JS.replace].
  - destruct (String.prefix p ""); [discriminate | reflexivity].
  - destruct (String.prefix p (String c s)); [discriminate|].
    pose proof (indexOf_ge s p) as Hge.
    destruct (Z.ltb_spec (JS.indexOf s p) 0); intros Hi.
    + rewrite IH by lia. reflexivity.
    + lia.
Qed.

(** [replace] rewrites the occurrence that [indexOf] finds: the first
    one. *)
Lemma replace_first (a p b r : string) :
  JS.indexOf (a ++ p ++ b) p = Z.of_nat (String.length a) ->
  JS.replace (a ++ p ++ b) p r = a ++ r ++ b.
Proof.
  induction a as [|c a IH]; intros H.
  - cbn [append]. destruct p as [|d p].
    + destruct b; reflexivity.
    + cbn [JS.replace append].
      change (String d (p ++ b)) with (String d p ++ b).
      rewrite (prefix_app (String d p) b).
      now rewrite (drop_app (String d p) b).
  - cbn [append JS.replace JS.indexOf String.length] in *.
    destruct (String.prefix p (String c (a ++ p ++ b))); [lia|].
    destruct (Z.ltb_spec (JS.indexOf (a ++ p ++ b) p) 0); [lia|].
    rewrite IH by lia. reflexivity.
Qed.

Lemma lastIndexOf_lacks (c : ascii) (s : string) :
  lacks c s = true -> JS.lastIndexOf s c = -1.
Proof.
  induction s as [|d s IH]; simpl; [reflexivity|].
  intros H. apply andb_prop in H as [Hd Hs].
  rewrite (IH Hs). simpl.
  destruct (Ascii.eqb d c); [discriminate | reflexivity].
Qed.

Lemma lastIndexOf_last (c : ascii) (d b : string) :
  lacks c b = true ->
  JS.lastIndexOf (d ++ String c b) c = Z.of_nat (String.length d).
Proof.
  intros Hb. induction d as [|x d IH].
  - cbn [append JS.lastIndexOf String.length].
    rewrite (lastIndexOf_lacks c b Hb). simpl.
    now rewrite Ascii.eqb_refl.
  - cbn [append JS.lastIndexOf String.length]. rewrite IH.
    destruct (Z.leb_spec 0 (Z.of_nat (String.length d))); lia.
Qed.

Lemma substring_app (d r : string) :
  String.substring 0 (String.length d) (d ++ r) = d.
Proof.
  induction d as [|x d IH]; simpl.
  - destruct r; reflexivity.
  - now rewrite IH.
Qed.

(** The folder of a path is what precedes its last separator. *)
Lemma folderPath_app (d b : string) :
  lacks "/" b = true -> folderPath (d ++ "/" ++ b) = d.
Proof.
  intros Hb. unfold folderPath, JS.substring.
  cbn [append]. rewrite (lastIndexOf_last "/" d b Hb).
  rewrite length_app. cbn [String.length].
  replace (Z.min (Z.min (Z.max 0 0) _) _) with 0 by lia.
  replace (Z.max (Z.min (Z.max 0 0) _) _)
    with (Z.of_nat (String.length d)) by lia.
  rewrite Z.sub_0_r, Nat2Z.id. apply substring_app.
Qed.

(** The first element of [split] is the text before the first
    separator. *)
Lemma split_first (c : ascii) (k r : string) :
  lacks c k = true ->
  JS.at0 (JS.split (k ++ String c r) c) = JS.Str k.
Proof.
  induction k as [|x k IH]; intros H.
  - cbn [append JS.split]. now rewrite Ascii.eqb_refl.
  - cbn [lacks] in H. apply andb_prop in H as [Hx Hk].
    cbn [append JS.split].
    destruct (Ascii.eqb x c); [discriminate|].
    specialize (IH Hk).
    destruct (JS.split (k ++ String c r) c); [discriminate|].
    cbn in IH |- *. now injection IH as ->.
Qed.

Lemma split_whole (c : ascii) (k : string) :
  lacks c k = true -> JS.at0 (JS.split k c) = JS.Str k.
Proof.
  induction k as [|x k IH]; intros H; [reflexivity|].
  cbn [lacks] in H. apply andb_prop in H as [Hx Hk].
  cbn [JS.split]. destruct (Ascii.eqb x c); [discriminate|].
  specialize (IH Hk).
  destruct (JS.split k c); [discriminate|].
  cbn in IH |- *. now injection IH as ->.
Qed.

(* ------------------------------------------------------------------- *)
(** *** Sequences of calls *)

Lemma perform_all_ok (plan tr : list effect) :
  (forall i c, nth_error plan i = Some c ->
               fails w (tr ++ firstn i plan) c = None) ->
  perform_all plan tr = (Return tt, (tr ++ plan)%list).
Proof.
  revert tr. induction plan as [|c plan IH]; intros tr H.
  - cbn. now rewrite app_nil_r.
  - cbn [perform_all for_of]. unfold bind, perform at 1.
    pose proof (H O c eq_refl) as H0. cbn in H0.
    rewrite app_nil_r in H0. rewrite H0.
    fold (perform_all plan). rewrite IH.
    + now rewrite <- app_assoc.
    + intros i c' Hi. rewrite <- app_assoc. exact (H (S i) c' Hi).
Qed.

Lemma perform_all_abort (plan tr : list effect) (k : nat) (c : effect)
      (e : error) :
  nth_error plan k = Some c ->
  fails w (tr ++ firstn k plan) c = Some e ->
  (forall i c', (i < k)%nat -> nth_error plan i = Some c' ->
                fails w (tr ++ firstn i plan) c' = None) ->
  perform_all plan tr = (Throw e, (tr ++ firstn (S k) plan)%list).
Proof.
  revert tr k. induction plan as [|x plan IH]; intros tr k Hk He Hlt.
  - destruct k; discriminate.
  - cbn [perform_all for_of]. unfold bind, perform at 1.
    destruct k as [|k].
    + cbn in Hk, He. injection Hk as ->. rewrite app_nil_r in He.
      rewrite He. reflexivity.
    + pose proof (Hlt O x (Nat.lt_0_succ k) eq_refl) as H0. cbn in H0.
      rewrite app_nil_r in H0. rewrite H0.
      fold (perform_all plan).
      rewrite (IH (tr ++ [x])%list k).
      * cbn [firstn]. now rewrite <- app_assoc.
      * exact Hk.
      * rewrite <- app_assoc. exact He.
      * intros i c' Hi Hn. rewrite <- app_assoc.
        apply (Hlt (S i) c'); [lia | exact Hn].
Qed.

Lemma for_of_app {A} (l1 l2 : list A) (body : A -> M unit) (tr : list effect) :
  for_of (l1 ++ l2) body tr
  = bind (for_of l1 body) (fun _ => for_of l2 body) tr.
Proof.
  revert tr. induction l1 as [|x l1 IH]; intros tr; [reflexivity|].
  cbn [for_of app]. unfold bind.
  destruct (body x tr) as [[[]|e] tr']; [|reflexivity].
  rewrite IH. reflexivity.
Qed.

Lemma perform_all_app (p q tr : list effect) :
  perform_all (p ++ q) tr
  = bind (perform_all p) (fun _ => perform_all q) tr.
Proof. apply for_of_app. Qed.

Lemma for_of_flat_map {A} (f : A -> list effect) (l : list A)
      (tr : list effect) :
  for_of l (fun x => perform_all (f x)) tr = perform_all (flat_map f l) tr.
Proof.
  revert tr. induction l as [|x l IH]; intros tr; [reflexivity|].
  cbn [for_of flat_map]. rewrite perform_all_app. unfold bind.
  destruct (perform_all (f x) tr) as [[[]|e] tr']; [|reflexivity].
  apply IH.
Qed.

Lemma for_of_map {A} (f : A -> effect) (l : list A) (tr : list effect) :
  for_of l (fun x => perform (f x)) tr = perform_all (map f l) tr.
Proof.
  revert tr. induction l as [|x l IH]; intros tr; [reflexivity|].
  cbn [for_of map perform_all]. unfold bind.
  destruct (perform (f x) tr) as [[[]|e] tr']; [|reflexivity].
  apply IH.
Qed.

Lemma for_of_ext {A} (l : list A) (f g : A -> M unit) (tr : list effect) :
  (forall x t, f x t = g x t) -> for_of l f tr = for_of l g tr.
Proof.
  intros H. revert tr. induction l as [|x l IH]; intros tr; [reflexivity|].
  cbn [for_of]. unfold bind. rewrite H.
  destruct (g x tr) as [[[]|e] tr']; [apply IH | reflexivity].
Qed.

(** Each operation makes the calls of its plan, in order. *)
Lemma downloadBlobs_plan (url root : string) (tr : list effect) :
  downloadBlobs url root tr
  = try_catch
      (perform_all (downloadPlan url root) ;; listingEnd)
      (fun error =>
         throw (Error ("Unable to download media files. " ++ message error)))
      tr.
Proof.
  unfold downloadBlobs, try_catch. f_equal.
  unfold downloadPlan, openContainer, for_await_blobs.
  cbn [app perform_all for_of]. unfold bind.
  destruct (perform _ tr) as [[[]|e] tr1]; [|reflexivity].
  destruct (perform _ tr1) as [[[]|e] tr2]; [|reflexivity].
  destruct (perform _ tr2) as [[[]|e] tr3]; [|reflexivity].
  fold (perform_all (flat_map (downloadCalls root) (listing w))).
  rewrite <- for_of_flat_map.
  rewrite (for_of_ext (listing w) _
             (fun b => perform_all (downloadCalls root b))).
  - reflexivity.
  - intros b t. unfold downloadCalls. cbn [perform_all for_of]. unfold bind.
    destruct (perform _ t) as [[[]|e] t1]; [|reflexivity].
    destruct (perform _ t1) as [[[]|e] t2]; reflexivity.
Qed.

Lemma deleteBlobs_plan (url : string) (tr : list effect) :
  deleteBlobs url tr
  = try_catch
      (perform_all (deletePlan url) ;; listingEnd)
      (fun error =>
         throw (Error ("Unable to delete media files. " ++ message error)))
      tr.
Proof.
  unfold deleteBlobs, try_catch. f_equal.
  unfold deletePlan, openContainer, for_await_blobs.
  cbn [app perform_all for_of]. unfold bind.
  destruct (perform _ tr) as [[[]|e] tr1]; [|reflexivity].
  destruct (perform _ tr1) as [[[]|e] tr2]; [|reflexivity].
  fold (perform_all (map (fun b => DeleteBlob (name b)) (listing w))).
  rewrite <- for_of_map. reflexivity.
Qed.

Lemma entry_induction (P : entry -> Prop) :
  P Plain ->
  (forall entries, Forall (fun e => P (snd e)) entries -> P (Folder entries)) ->
  (forall e, P (Closed e)) ->
  (forall e, P (Lost e)) ->
  forall t, P t.
Proof.
  intros HP HF HC HL. fix IH 1. intros [|entries|e|e].
  - exact HP.
  - apply HF. induction entries as [|[f c] rest IHr]; constructor.
    + apply IH.
    + exact IHr.
  - apply HC.
  - apply HL.
Qed.

Lemma readable_cons (f : string) (c : entry) (rest : list (string * entry)) :
  readable (Folder ((f, c) :: rest))
  = match readable c, readable (Folder rest) with
    | Some n, Some (Dir ns) => Some (Dir ((f, n) :: ns))
    | _, _ => None
    end.
Proof.
  cbn [readable]. destruct (readable c) as [n|]; [|reflexivity].
  match goal with |- context [?F rest] => destruct (F rest) end; reflexivity.
Qed.

Lemma readable_Folder (entries : list (string * entry)) (n : node) :
  readable (Folder entries) = Some n -> exists ns, n = Dir ns.
Proof.
  cbn [readable].
  match goal with |- context [?F entries] => destruct (F entries) as [ns|] end;
    [|discriminate].
  intros [= <-]. now exists ns.
Qed.

Lemma visit_cons (file f : string) (c : entry) (rest : list (string * entry)) :
  visit file (Folder ((f, c) :: rest))
  = match visit (file ++ "/" ++ f) c with
    | Throw e => Throw e
    | Return found =>
        match visit file (Folder rest) with
        | Throw e => Throw e
        | Return more => Return (found ++ more)%list
        end
    end.
Proof. reflexivity. Qed.

Lemma visit_app (file : string) (es1 es2 : list (string * entry)) :
  visit file (Folder (es1 ++ es2))
  = match visit file (Folder es1) with
    | Throw e => Throw e
    | Return found =>
        match visit file (Folder es2) with
        | Throw e => Throw e
        | Return more => Return (found ++ more)%list
        end
    end.
Proof.
  induction es1 as [|[f c] rest IH].
  - cbn [app]. change (visit file (Folder [])) with (@Return (list string) []).
    now destruct (visit file (Folder es2)).
  - cbn [app]. rewrite !visit_cons, IH.
    destruct (visit (file ++ "/" ++ f) c) as [found|e]; [|reflexivity].
    destruct (visit file (Folder rest)) as [more|e]; [|reflexivity].
    destruct (visit file (Folder es2)) as [last|e]; [|reflexivity].
    now rewrite app_assoc.
Qed.

(** On a tree that can be read throughout the visit collects the names
    of [listFiles], and on any other one it throws. *)
Lemma visit_readable (t : entry) :
  forall file,
    match readable t with
    | Some n => visit file t = Return (listFiles file n)
    | None => exists e, visit file t = Throw e
    end.
Proof.
  induction t as [|entries IH|e|e] using entry_induction; intros file.
  - reflexivity.
  - induction entries as [|[f c] rest IHr]; [reflexivity|].
    inversion IH as [|? ? Hc Hrest]; subst. cbn [snd] in Hc.
    specialize (Hc (file ++ "/" ++ f)). specialize (IHr Hrest).
    rewrite readable_cons, visit_cons.
    destruct (readable c) as [n|].
    + rewrite Hc.
      destruct (readable (Folder rest)) as [[|ns]|] eqn:E.
      * destruct (readable_Folder _ _ E) as [ns [=]].
      * now rewrite IHr.
      * destruct IHr as [e ->]. now exists e.
    + destruct Hc as [e ->]. now exists e.
  - now exists e.
  - now exists e.
Qed.

Lemma local_is_directory (dir : string) (n : node) :
  local w dir = Some n -> exists entries, n = Dir entries.
Proof.
  unfold local. destruct (disk w dir) as [es|e]; [|discriminate].
  apply readable_Folder.
Qed.

Lemma listFilesInDirectory_readable (dir : string)
      (entries : list (string * node)) (tr : list effect) :
  local w dir = Some (Dir entries) ->
  listFilesInDirectory dir tr = (Return (listFiles dir (Dir entries)), tr).
Proof.
  unfold local, listFilesInDirectory.
  destruct (disk w dir) as [es|e]; [|discriminate]. intros Hr.
  pose proof (visit_readable (Folder es) dir) as Hv. rewrite Hr in Hv.
  now rewrite Hv.
Qed.

Lemma listFilesInDirectory_unreadable (dir : string) (tr : list effect) :
  local w dir = None -> exists e, listFilesInDirectory dir tr = (Throw e, tr).
Proof.
  unfold local, listFilesInDirectory.
  destruct (disk w dir) as [es|e]; [|now exists e]. intros Hr.
  pose proof (visit_readable (Folder es) dir) as Hv. rewrite Hr in Hv.
  destruct Hv as [e Hv]. exists e. now rewrite Hv.
Qed.

Lemma listFilesInDirectory_silent (dir : string) (tr : list effect) :
  snd (listFilesInDirectory dir tr) = tr.
Proof.
  unfold listFilesInDirectory.
  destruct (disk w dir) as [es|e]; [|reflexivity].
  now destruct (visit dir (Folder es)).
Qed.

Lemma uploadBlobs_plan (url root : string) (entries : list (string * node))
      (tr : list effect) :
  local w root = Some (Dir entries) ->
  uploadBlobs url root tr
  = try_catch
      (perform_all (uploadPlan url root (listFiles root (Dir entries))))
      (fun error =>
         throw (Error ("Unable to upload media files. " ++ message error)))
      tr.
Proof.
  intros Hl. unfold uploadBlobs, try_catch. f_equal.
  unfold uploadPlan, openContainer.
  cbn [app perform_all for_of]. unfold bind.
  destruct (perform _ tr) as [[[]|e] tr1]; [|reflexivity].
  destruct (perform _ tr1) as [[[]|e] tr2]; [|reflexivity].
  rewrite (listFilesInDirectory_readable _ _ _ Hl).
  fold (perform_all (map (uploadCall root) (listFiles root (Dir entries)))).
  rewrite <- for_of_map. reflexivity.
Qed.

(* ------------------------------------------------------------------- *)
(** *** Dates *)

(** The calendar fields are in range, and the days from 0000-01-01 to
    9999-12-31 have a year of four digits. *)
Lemma civil_bounds (z : Z) :
  let '(y, m, d) := Moment.civil_of_days z in
  1 <= m <= 12 /\ 1 <= d <= 31 /\ (-719528 <= z < 2932897 -> 0 <= y <= 9999).
Proof.
  unfold Moment.civil_of_days.
  set (z' := z + 719468).
  set (era := z' / 146097).
  set (doe := z' - era * 146097).
  assert (Hdoe : 0 <= doe < 146097)
    by (unfold doe, era; Z.to_euclidean_division_equations; lia).
  set (yoe := (doe - doe / 1460 + doe / 36524 - doe / 146096) / 365).
  assert (Hyoe : 0 <= yoe <= 399)
    by (unfold yoe; Z.to_euclidean_division_equations; lia).
  set (doy := doe - (365 * yoe + yoe / 4 - yoe / 100)).
  assert (Hdoy : 0 <= doy <= 365)
    by (unfold doy, yoe; Z.to_euclidean_division_equations; lia).
  set (mp := (5 * doy + 2) / 153).
  assert (Hmp : 0 <= mp <= 11)
    by (unfold mp; Z.to_euclidean_division_equations; lia).
  set (d := doy - (153 * mp + 2) / 5 + 1).
  assert (Hd : 1 <= d <= 31)
    by (unfold d, mp; Z.to_euclidean_division_equations; lia).
  split; [destruct (Z.ltb_spec mp 10); lia|].
  split; [exact Hd|].
  intros Hz.
  assert (He : -1 <= era <= 24)
    by (unfold era, z'; Z.to_euclidean_division_equations; lia).
  assert (Hlo : era = -1 -> 146037 <= doe) by (unfold doe, z'; lia).
  assert (Hlo2 : era = -1 -> yoe = 399).
  { intros E. specialize (Hlo E). unfold yoe.
    Z.to_euclidean_division_equations; lia. }
  assert (Hlo3 : era = -1 -> 10 <= mp).
  { intros E. specialize (Hlo E). specialize (Hlo2 E). unfold mp, doy. rewrite Hlo2.
    Z.to_euclidean_division_equations; lia. }
  assert (Hhi : era = 24 -> doe <= 146036) by (unfold doe, z'; lia).
  assert (Hhi3 : era = 24 -> yoe = 399 -> mp <= 9).
  { intros E Y. specialize (Hhi E). unfold mp, doy. rewrite Y.
    Z.to_euclidean_division_equations; lia. }
  destruct (Z.ltb_spec mp 10);
    [destruct (Z.leb_spec (mp + 3) 2) | destruct (Z.leb_spec (mp - 9) 2)];
    lia.
Qed.

Lemma fixed_length (n : nat) (x : Z) : String.length (fixed n x) = n.
Proof.
  revert x. induction n as [|n IH]; intros x; [reflexivity|].
  cbn [fixed]. rewrite length_app, IH. cbn. lia.
Qed.

Lemma agree_below (width : Z) (n : nat) (g : Z -> Z) (bound : nat) :
  forallb (agree width n g) (seq 0 bound) = true ->
  forall x, 0 <= x < Z.of_nat bound ->
            Moment.zeroFill (g x) width = fixed n (g x).
Proof.
  intros H x Hx. rewrite forallb_forall in H.
  specialize (H (Z.to_nat x)). unfold agree in H.
  rewrite Z2Nat.id in H by lia. apply String.eqb_eq, H.
  apply in_seq. lia.
Qed.

Lemma zeroFill_2 (x : Z) : 0 <= x < 100 -> Moment.zeroFill x 2 = fixed 2 x.
Proof.
  apply (agree_below 2 2 (fun x => x) 100). vm_compute. reflexivity.
Qed.

Lemma zeroFill_4 (x : Z) :
  0 <= x < 10000 -> Moment.zeroFill x 4 = fixed 4 x.
Proof.
  intros Hx.
  apply (agree_below 4 4 (fun x => x) (Z.to_nat 10000)); [|lia].
  vm_compute. reflexivity.
Qed.

(** Seven fractional digits: the three of the milliseconds, and four
    zeros. *)
Lemma zeroFill_fraction (x : Z) :
  0 <= x < 1000 ->
  Moment.zeroFill (x * 10000) 7 = fixed 3 x ++ "0000".
Proof.
  intros Hx.
  rewrite (agree_below 7 7 (fun x => x * 10000) (Z.to_nat 1000)); [| |lia].
  - cbn [fixed].
    replace (x * 10000 / 10 / 10 / 10 / 10) with x
      by (Z.to_euclidean_division_equations; lia).
    replace (x * 10000 mod 10) with 0
      by (Z.to_euclidean_division_equations; lia).
    replace (x * 10000 / 10 mod 10) with 0
      by (Z.to_euclidean_division_equations; lia).
    replace (x * 10000 / 10 / 10 mod 10) with 0
      by (Z.to_euclidean_division_equations; lia).
    replace (x * 10000 / 10 / 10 / 10 mod 10) with 0
      by (Z.to_euclidean_division_equations; lia).
    rewrite !append_assoc. reflexivity.
  - vm_compute. reflexivity.
Qed.

(** The format of [generateSASToken] prints every instant of the years
    0 to 9999 on 28 characters of fixed layout. *)
Lemma format_fixed (m : Moment.t) :
  year0 <= m < year10000 ->
  Moment.format m expiryFormat = fixedWidthTimestamp m.
Proof.
  unfold year0, year10000. intros Hm.
  pose proof (civil_bounds (m / Moment.msPerDay)) as Hc.
  unfold Moment.format, expiryFormat, fixedWidthTimestamp.
  cbn [map Moment.format_token String.concat].
  unfold Moment.year, Moment.month, Moment.date.
  destruct (Moment.civil_of_days (m / Moment.msPerDay)) as [[y mo] d].
  cbn [fst snd]. destruct Hc as (Hmo & Hd & Hy).
  assert (Hy' : 0 <= y <= 9999).
  { apply Hy. unfold Moment.msPerDay.
    Z.to_euclidean_division_equations; lia. }
  rewrite (zeroFill_4 y) by lia.
  rewrite (zeroFill_2 mo) by lia.
  rewrite (zeroFill_2 d) by lia.
  rewrite (zeroFill_2 (Moment.hours m))
    by (unfold Moment.hours, Moment.msPerDay;
        Z.to_euclidean_division_equations; lia).
  rewrite (zeroFill_2 (Moment.minutes m))
    by (unfold Moment.minutes; Z.to_euclidean_division_equations; lia).
  rewrite (zeroFill_2 (Moment.seconds m))
    by (unfold Moment.seconds; Z.to_euclidean_division_equations; lia).
  rewrite (zeroFill_fraction (Moment.millisecond m))
    by (unfold Moment.millisecond; Z.to_euclidean_division_equations; lia).
  cbn [append]. rewrite !append_assoc. reflexivity.
Qed.

Lemma fixedWidthTimestamp_length (m : Moment.t) :
  String.length (fixedWidthTimestamp m) = 28%nat.
Proof.
  unfold fixedWidthTimestamp.
  repeat (rewrite length_app, ?fixed_length). reflexivity.
Qed.

(* ------------------------------------------------------------------- *)
(** *** Arguments *)

Lemma given_Some (a : option string) (x : string) :
  given a = Some x <-> a = Some x /\ x <> "".
Proof.
  unfold given, arg. destruct a as [y|]; cbn.
  - destruct (String.eqb_spec y ""); cbn; split.
    + discriminate.
    + intros [[= ->] H]. contradiction.
    + intros [= ->]. now split.
    + now intros [[= ->] _].
  - split; [discriminate | now intros [? _]].
Qed.

Lemma given_None (a : option string) :
  given a = None <-> a = None \/ a = Some "".
Proof.
  unfold given, arg. destruct a as [y|]; cbn.
  - destruct (String.eqb_spec y ""); cbn; split.
    + intros _. right. now subst.
    + reflexivity.
    + discriminate.
    + intros [H|[= H]]; [discriminate | contradiction].
  - split; [now left | reflexivity].
Qed.

(* ------------------------------------------------------------------- *)
(** *** The token *)

(** C3.  A credential derived from a non-empty identifier [id] and a
    non-empty [key] is the string
    [SharedAccessSignature uid=<id>&ex=<expiry>&sn=<signature>], where
    the expiry is the clock plus [expiresIn] seconds (3600 when it is
    not given, as in [getTokenOrThrow]) printed by the format
    [YYYY-MM-DD[T]HH:mm:ss.SSSSSSS[Z]], and the signature is the base64
    text of the HMAC-SHA512 under [key] of the identifier, a newline and
    the expiry.  For an expiry in the years 0 to 9999 the expiry is
    written on 28 characters as [YYYY-MM-DDTHH:mm:ss.fffffffZ], with
    seven fractional digits and a final [Z]. *)
Theorem generateSASToken_format (id key : string) (expiresIn : option Z) :
  id <> "" -> key <> "" ->
  let seconds := match expiresIn with Some n => n | None => 3600 end in
  let expiry := clock w + seconds * 1000 in
  let expiryString := Moment.format expiry expiryFormat in
  run (generateSASToken id key expiresIn)
  = (Return ("SharedAccessSignature uid=" ++ id ++ "&ex=" ++ expiryString
               ++ "&sn="
               ++ Crypto.createHmac_sha512_base64 key
                    (id ++ newline ++ expiryString)), []) /\
  run (getTokenOrThrow None (Some id) (Some key))
  = run (generateSASToken id key None) /\
  (year0 <= expiry < year10000 ->
   expiryString = fixedWidthTimestamp expiry /\
   String.length expiryString = 28%nat).
Proof.
  intros Hid Hkey seconds expiry expiryString.
  split; [|split].
  - reflexivity.
  - unfold getTokenOrThrow.
    assert (Hi : given (Some id) = Some id) by (apply given_Some; auto).
    assert (Hk : given (Some key) = Some key) by (apply given_Some; auto).
    rewrite Hi, Hk. reflexivity.
  - intros Hrange. unfold expiryString.
    rewrite (format_fixed expiry Hrange).
    split; [reflexivity | apply fixedWidthTimestamp_length].
Qed.

(** C5.  [getTokenOrThrow] returns an explicit token that is not empty
    as it is; otherwise, with an identifier and a key that are both
    not empty, it returns the credential derived from them; otherwise
    it throws the error that asks for a token or an identifier and a
    key.  In the last case (as in the others) no call leaves the
    process: the log is empty, so no network call is made. *)
Theorem getTokenOrThrow_resolution (token id key : option string) :
  (forall t, token = Some t -> t <> "" ->
             run (getTokenOrThrow token id key) = (Return t, [])) /\
  (forall i k,
      token = None \/ token = Some "" ->
      id = Some i -> i <> "" -> key = Some k -> k <> "" ->
      run (getTokenOrThrow token id key) = run (generateSASToken i k None)
      /\ snd (run (generateSASToken i k None)) = []) /\
  (token = None \/ token = Some "" ->
   (id = None \/ id = Some "") \/ (key = None \/ key = Some "") ->
   run (getTokenOrThrow token id key)
   = (Throw (Error "You need to specify either: token or id AND key"), [])).
Proof.
  split; [|split].
  - intros t Ht Hne. unfold getTokenOrThrow.
    rewrite (proj2 (given_Some token t) (conj Ht Hne)). reflexivity.
  - intros i k Ht Hi Hine Hk Hkne. unfold getTokenOrThrow.
    rewrite (proj2 (given_None token) Ht).
    rewrite (proj2 (given_Some id i) (conj Hi Hine)).
    rewrite (proj2 (given_Some key k) (conj Hk Hkne)).
    split; reflexivity.
  - intros Ht Hik. unfold getTokenOrThrow.
    rewrite (proj2 (given_None token) Ht).
    destruct Hik as [Hi|Hk].
    + rewrite (proj2 (given_None id) Hi). reflexivity.
    + rewrite (proj2 (given_None key) Hk).
      destruct (given id); reflexivity.
Qed.

(* ------------------------------------------------------------------- *)
(** *** The request *)

(** C2, as the code does it; it leaves the claim on one kind of
    response.  Whatever the status of the response, the promise of
    [request] is settled as follows, [data] being the body received.
    Status 200 or 201: it resolves with [data] itself when [data] does
    not start with an opening brace, without parsing; when [data]
    starts with one, it resolves with the value [JSON.parse] gives; and
    where [JSON.parse] throws (the body starts with a brace and is not
    JSON), the code has no handler: the exception leaves the listener
    and the promise is never settled, where the claim asks for a result
    and no throw.
    Status 404: it rejects with [NotFound] and the address.  Status
    401: [Unauthorized].  Status 403: [Forbidden].  Every other
    status: [UnhandledError] with the address, the status code and the
    status message. *)
Theorem request_status_mapping
        (method url accessToken : string) (body : option string)
        (statusCode : Z) (statusMessage : string) (chunks : list string) :
  network w url (requestOptions method accessToken body)
  = Response statusCode statusMessage chunks ->
  let data := String.concat "" chunks in
  let settled := fst (run (request method url accessToken body)) in
  (statusCode = 200 \/ statusCode = 201 ->
   JS.startsWith data "{" = false ->
   settled = Return (Resolved (Text data))) /\
  (statusCode = 200 \/ statusCode = 201 ->
   JS.startsWith data "{" = true ->
   forall j, JSON.parse data = Some j ->
             settled = Return (Resolved (Parsed j))) /\
  (statusCode = 200 \/ statusCode = 201 ->
   JS.startsWith data "{" = true ->
   JSON.parse data = None ->
   settled = Return (Uncaught SyntaxError)) /\
  (statusCode = 404 ->
   settled = Return (Rejected (MkError (Some "NotFound")
                                 ("Resource not found: " ++ url)))) /\
  (statusCode = 401 ->
   settled = Return (Rejected (MkError (Some "Unauthorized")
     "Unauthorized. Make sure you correctly specified management API access token before running the script."))) /\
  (statusCode = 403 ->
   settled = Return (Rejected (MkError (Some "Forbidden")
     "Looks like you are not allowed to perform this operation. Please check with your administrator."))) /\
  (statusCode <> 200 -> statusCode <> 201 -> statusCode <> 404 ->
   statusCode <> 401 -> statusCode <> 403 ->
   settled
   = Return (Rejected (MkError (Some "UnhandledError")
               ("Could not complete request to " ++ url ++ ". Status: "
                  ++ JS.number_to_string statusCode ++ " "
                  ++ statusMessage)))).
Proof.
  intros Hnet data settled.
  assert (Hs : settled = Return (on_end url statusCode statusMessage data)).
  { unfold settled, run, request. cbn [fst]. rewrite Hnet. reflexivity. }
  rewrite Hs. unfold on_end.
  repeat split.
  - intros [-> | ->] Hb; cbn; now rewrite Hb.
  - intros [-> | ->] Hb j Hj; cbn; now rewrite Hb, Hj.
  - intros [-> | ->] Hb Hj; cbn; now rewrite Hb, Hj.
  - intros ->. reflexivity.
  - intros ->. reflexivity.
  - intros ->. reflexivity.
  - intros H200 H201 H404 H401 H403.
    destruct (Z.eqb_spec statusCode 200); [contradiction|].
    destruct (Z.eqb_spec statusCode 201); [contradiction|].
    destruct (Z.eqb_spec statusCode 404); [contradiction|].
    destruct (Z.eqb_spec statusCode 401); [contradiction|].
    destruct (Z.eqb_spec statusCode 403); [contradiction|].
    reflexivity.
Qed.

(** C9.  When the request fails in the transport (the network answers
    with an [error] event carrying [e]), the promise of [request]
    rejects with [e] itself, and [request] has called [https.request]
    once: it does not try again. *)
Theorem request_transport_error
        (method url accessToken : string) (body : option string)
        (e : error) :
  network w url (requestOptions method accessToken body) = NetError e ->
  fst (run (request method url accessToken body)) = Return (Rejected e) /\
  httpsRequests (snd (run (request method url accessToken body))) = 1%nat.
Proof.
  intros Hnet. unfold run, request. cbn [fst snd]. rewrite Hnet.
  split; [reflexivity|].
  destruct (given body); reflexivity.
Qed.

(* ------------------------------------------------------------------- *)
(** *** The bulk operations *)

Lemma first_failure_prefix (plan : list effect) (k : nat) (e : error)
      (tail : M unit) (msg : string) :
  first_failure plan k e ->
  run (try_catch (perform_all plan ;; tail)
         (fun error => throw (Error (msg ++ message error))))
  = (Throw (Error (msg ++ message e)), firstn (S k) plan).
Proof.
  intros (c & Hc & He & Hlt).
  unfold run, try_catch, bind.
  rewrite (perform_all_abort plan [] k c e Hc He Hlt). reflexivity.
Qed.

Lemma no_failure_run (plan : list effect) (tail : M unit)
      (h : error -> M unit) :
  no_failure plan ->
  run (try_catch (perform_all plan ;; tail) h) = try_catch tail h plan.
Proof.
  intros H. unfold run, try_catch, bind.
  rewrite (perform_all_ok plan [] H). reflexivity.
Qed.

(** When no call throws and the listing does not fail, [downloadBlobs]
    makes the calls of its plan and returns: for each blob, in the
    order of the listing, the folder of its path is created (with its
    parents) and then the blob is written to its path. *)
Lemma downloadBlobs_ok (url root : string) :
  no_failure (downloadPlan url root) -> listing_error w = None ->
  run (downloadBlobs url root)
  = (Return tt,
     (openContainer url ++ [Mkdir (path_resolve root) true]
        ++ flat_map
             (fun b =>
                [ Mkdir (path_resolve (folderPath (pathToFile root b))) true;
                  DownloadToFile (name b) (pathToFile root b) ])
             (listing w))%list).
Proof.
  intros Hnf Hle. unfold run. rewrite downloadBlobs_plan.
  fold (run (try_catch (perform_all (downloadPlan url root) ;; listingEnd)
    (fun error =>
       throw (Error ("Unable to download media files. " ++ message error))))).
  rewrite (no_failure_run _ _ _ Hnf).
  unfold try_catch, listingEnd. rewrite Hle. reflexivity.
Qed.

Lemma uploadBlobs_ok (url root : string) (entries : list (string * node)) :
  local w root = Some (Dir entries) ->
  no_failure (uploadPlan url root (listFiles root (Dir entries))) ->
  run (uploadBlobs url root)
  = (Return tt,
     (openContainer url
        ++ map (fun fileName =>
                  UploadFile (blobKey root fileName) fileName
                    (uploadContentType fileName))
               (listFiles root (Dir entries)))%list).
Proof.
  intros Hl Hnf. unfold run. rewrite (uploadBlobs_plan url root entries [] Hl).
  unfold try_catch. rewrite (perform_all_ok _ [] Hnf). reflexivity.
Qed.

(** The path of a blob whose content type has an extension. *)
Lemma pathToFile_known (root : string) (b : blob) (e : string) :
  extensions (contentType b) = Some e ->
  pathToFile root b = root ++ "/" ++ name b ++ "." ++ e.
Proof.
  intros H. unfold pathToFile, mime_extension. rewrite H. reflexivity.
Qed.

(** The path of a blob whose content type has none: [mime.extension]
    returns [false], which is not [null], and is written out. *)
Lemma pathToFile_unknown (root : string) (b : blob) :
  extensions (contentType b) = None ->
  pathToFile root b = root ++ "/" ++ name b ++ ".false".
Proof.
  intros H. unfold pathToFile, mime_extension. rewrite H. reflexivity.
Qed.

(** The content type of a file whose name has a known extension, and
    of one that has none. *)
Lemma uploadContentType_known (fileName t : string) :
  types fileName = Some t -> t <> "" ->
  uploadContentType fileName = JS.Str t.
Proof.
  intros H Ht. unfold uploadContentType, mime_lookup, JS.or. rewrite H.
  cbn. destruct (String.eqb_spec t ""); [contradiction | reflexivity].
Qed.

Lemma uploadContentType_unknown (fileName : string) :
  types fileName = None ->
  uploadContentType fileName = JS.Str "application/octet-stream".
Proof.
  intros H. unfold uploadContentType, mime_lookup. now rewrite H.
Qed.

(** The key of a file under the root: its path relative to the root,
    cut at its first dot. *)
Lemma blobKey_cut (root k rest : string) :
  lacks "." k = true ->
  blobKey root (root ++ "/" ++ k ++ "." ++ rest) = JS.Str k.
Proof.
  intros Hk. unfold blobKey.
  rewrite <- (append_assoc root "/"). rewrite replace_prefix.
  apply (split_first "." k rest Hk).
Qed.

Lemma blobKey_whole (root k : string) :
  lacks "." k = true -> blobKey root (root ++ "/" ++ k) = JS.Str k.
Proof.
  intros Hk. unfold blobKey.
  rewrite <- (append_assoc root "/"). rewrite replace_prefix.
  apply (split_whole "." k Hk).
Qed.

(** C1.  The blob [a/b] of content type [image/png] (for which the
    registry has the extension [png], and [image/png] for the file) is
    downloaded to [<root>/a/b.png], its folder [<root>/a] being
    created first; and [uploadBlobs] from [<root>], where that file
    is, uploads it under the key [a/b] with the content type
    [image/png].  The key is what remains of the file name after the
    root and its separator are removed, up to the first dot; so the key
    of the file a blob is downloaded to is the name of the blob, when
    that name has no dot. *)
Theorem blob_file_round_trip (url root : string) :
  extensions "image/png" = Some "png" ->
  types (root ++ "/a/b.png") = Some "image/png" ->
  listing w = [Blob "a/b" "image/png"] ->
  listing_error w = None ->
  local w root = Some (Dir [("a", Dir [("b.png", File)])]) ->
  (forall tr c, fails w tr c = None) ->
  run (downloadBlobs url root)
  = (Return tt,
     (openContainer url
        ++ [ Mkdir (path_resolve root) true;
             Mkdir (path_resolve (root ++ "/a")) true;
             DownloadToFile "a/b" (root ++ "/a/b.png") ])%list) /\
  run (uploadBlobs url root)
  = (Return tt,
     (openContainer url
        ++ [ UploadFile (JS.Str "a/b") (root ++ "/a/b.png")
               (JS.Str "image/png") ])%list) /\
  (forall k rest, lacks "." k = true ->
     blobKey root (root ++ "/" ++ k ++ "." ++ rest) = JS.Str k) /\
  (forall b e, extensions (contentType b) = Some e ->
               lacks "." (name b) = true ->
               blobKey root (pathToFile root b) = JS.Str (name b)).
Proof.
  intros Hext Htyp Hlist Hle Hloc Hnf.
  assert (Hpath : pathToFile root (Blob "a/b" "image/png")
                  = root ++ "/a/b.png").
  { rewrite (pathToFile_known root _ "png") by exact Hext.
    cbn [name append]. reflexivity. }
  split; [|split; [|split]].
  - rewrite downloadBlobs_ok.
    + rewrite Hlist. cbn [flat_map app name]. rewrite Hpath.
      replace (root ++ "/a/b.png") with ((root ++ "/a") ++ "/" ++ "b.png")
        by (now rewrite append_assoc).
      rewrite folderPath_app by reflexivity. reflexivity.
    + intros i c _. apply Hnf.
    + exact Hle.
  - rewrite (uploadBlobs_ok url root _ Hloc).
    + cbn [listFiles map app append].
      rewrite !append_assoc. cbn [append].
      rewrite (uploadContentType_known _ "image/png" Htyp)
        by discriminate.
      replace (root ++ "/a/b.png") with (root ++ "/" ++ "a/b" ++ "." ++ "png")
        by reflexivity.
      rewrite blobKey_cut by reflexivity. reflexivity.
    + intros i c _. apply Hnf.
  - intros k rest Hk. apply blobKey_cut, Hk.
  - intros b e He Hb. rewrite (pathToFile_known root b e He).
    apply blobKey_cut, Hb.
Qed.

Lemma opensContainer_intro (url : string) (m : M unit)
      (h : error -> M unit) :
  (forall e tr, snd (h e tr) = tr) ->
  (forall tr, exists tr', snd (m tr) = (tr ++ tr')%list) ->
  opensContainer url
    (snd (run (try_catch
                 (perform (NewBlobServiceClient (serviceUrl url)) ;;
                  perform (GetContainerClient blobStorageContainer) ;; m)
                 h))).
Proof.
  intros Hh Hm. unfold opensContainer, run, try_catch, bind, perform.
  cbn [app].
  destruct (fails w [] (NewBlobServiceClient (serviceUrl url))) as [e|] eqn:E1.
  - rewrite Hh. eexists. split; [reflexivity | discriminate].
  - destruct (fails w [NewBlobServiceClient (serviceUrl url)]
                (GetContainerClient blobStorageContainer)) as [e|].
    + rewrite Hh. eexists. split; [reflexivity|]. intros _.
      eexists. reflexivity.
    + destruct (Hm [NewBlobServiceClient (serviceUrl url);
                    GetContainerClient blobStorageContainer]) as [tr' Htr'].
      destruct (m _) as [[[]|e] tr2]; cbn [snd] in *.
      * subst tr2. eexists. split; [reflexivity|]. intros _.
        eexists. reflexivity.
      * rewrite Hh. subst tr2. eexists. split; [reflexivity|]. intros _.
        eexists. reflexivity.
Qed.

(** A computation only adds to the log. *)
Lemma perform_extends (c : effect) (tr : list effect) :
  exists tr', snd (perform c tr) = (tr ++ tr')%list.
Proof.
  unfold perform. destruct (fails w tr c); eexists; reflexivity.
Qed.

Lemma bind_extends {A B} (m : M A) (k : A -> M B) :
  (forall tr, exists tr', snd (m tr) = (tr ++ tr')%list) ->
  (forall a tr, exists tr', snd (k a tr) = (tr ++ tr')%list) ->
  forall tr, exists tr', snd (bind m k tr) = (tr ++ tr')%list.
Proof.
  intros Hm Hk tr. unfold bind. destruct (Hm tr) as [t1 H1].
  destruct (m tr) as [[a|e] tr1]; cbn [snd] in *; subst tr1.
  - destruct (Hk a (tr ++ t1)%list) as [t2 H2]. rewrite H2.
    exists (t1 ++ t2)%list. now rewrite app_assoc.
  - now exists t1.
Qed.

Lemma for_of_extends {A} (l : list A) (body : A -> M unit) :
  (forall x tr, exists tr', snd (body x tr) = (tr ++ tr')%list) ->
  forall tr, exists tr', snd (for_of l body tr) = (tr ++ tr')%list.
Proof.
  intros Hb. induction l as [|x l IH]; intros tr.
  - exists []. cbn. now rewrite app_nil_r.
  - cbn [for_of]. apply bind_extends; [apply Hb | intros _; apply IH].
Qed.

Lemma listingEnd_extends (tr : list effect) :
  exists tr', snd (listingEnd tr) = (tr ++ tr')%list.
Proof.
  exists []. unfold listingEnd, throw, ret. rewrite app_nil_r.
  destruct (listing_error w); reflexivity.
Qed.

(** C10.  The three bulk operations derive the address of the blob
    service from the address of the container in the same way, by
    [replace], which deletes the first occurrence of [/content]
    wherever it is and nothing else, and they open the container
    [content] of that service.  So where [/content] occurs earlier in
    the address than as the name of the container, the service address
    is not the one meant: for
    [https://acct.blob.core.windows.net/contentful/content?sv=1] it is
    [https://acct.blob.core.windows.netful/content?sv=1]. *)
Theorem serviceUrl_first_occurrence (url root : string) :
  (forall a b,
      JS.indexOf (a ++ "/content" ++ b) "/content"
      = Z.of_nat (String.length a) ->
      serviceUrl (a ++ "/content" ++ b) = a ++ b) /\
  (JS.indexOf url "/content" = -1 -> serviceUrl url = url) /\
  opensContainer url (snd (run (downloadBlobs url root))) /\
  opensContainer url (snd (run (uploadBlobs url root))) /\
  opensContainer url (snd (run (deleteBlobs url))) /\
  serviceUrl "https://acct.blob.core.windows.net/contentful/content?sv=1"
  = "https://acct.blob.core.windows.netful/content?sv=1".
Proof.
  split; [|split; [|split; [|split; [|split]]]].
  - intros a b H. unfold serviceUrl, blobStorageContainer. cbn [append].
    apply (replace_first a "/content" b "" H).
  - intros H. apply replace_absent, H.
  - unfold downloadBlobs. apply opensContainer_intro; [reflexivity|].
    apply bind_extends; [apply perform_extends | intros _].
    unfold for_await_blobs.
    apply bind_extends; [|intros _; apply listingEnd_extends].
    apply for_of_extends. intros b.
    apply bind_extends; [apply perform_extends | intros _].
    apply perform_extends.
  - unfold uploadBlobs. apply opensContainer_intro; [reflexivity|].
    apply bind_extends.
    + intros tr. exists []. rewrite app_nil_r.
      apply listFilesInDirectory_silent.
    + intros files. apply for_of_extends. intros f. apply perform_extends.
  - unfold deleteBlobs. apply opensContainer_intro; [reflexivity|].
    unfold for_await_blobs.
    apply bind_extends; [|intros _; apply listingEnd_extends].
    apply for_of_extends. intros b. apply perform_extends.
  - reflexivity.
Qed.

(** C6, as the code has it.  Each bulk operation makes its calls one
    after the other, blob after blob, and stops at the first call that
    throws: the log ends with that call, no later call is made, and
    the operation throws a new error whose message is [Unable to
    download media files. ], [Unable to upload media files. ] or
    [Unable to delete media files. ] followed by the message of the
    error that was thrown.  A listing that fails after all calls went
    well is surfaced in the same way.  Of the cause, the new error
    keeps the message only. *)
Theorem bulk_operations_abort (url root : string) (k : nat) (e : error) :
  (first_failure (downloadPlan url root) k e ->
   run (downloadBlobs url root)
   = (Throw (Error ("Unable to download media files. " ++ message e)),
      firstn (S k) (downloadPlan url root))) /\
  (forall entries,
      local w root = Some (Dir entries) ->
      first_failure (uploadPlan url root (listFiles root (Dir entries))) k e ->
      run (uploadBlobs url root)
      = (Throw (Error ("Unable to upload media files. " ++ message e)),
         firstn (S k) (uploadPlan url root (listFiles root (Dir entries))))) /\
  (first_failure (deletePlan url) k e ->
   run (deleteBlobs url)
   = (Throw (Error ("Unable to delete media files. " ++ message e)),
      firstn (S k) (deletePlan url))) /\
  (no_failure (downloadPlan url root) -> listing_error w = Some e ->
   run (downloadBlobs url root)
   = (Throw (Error ("Unable to download media files. " ++ message e)),
      downloadPlan url root)) /\
  (no_failure (deletePlan url) -> listing_error w = Some e ->
   run (deleteBlobs url)
   = (Throw (Error ("Unable to delete media files. " ++ message e)),
      deletePlan url)).
Proof.
  split; [|split; [|split; [|split]]].
  - intros H. unfold run. rewrite downloadBlobs_plan.
    apply (first_failure_prefix _ k e listingEnd _ H).
  - intros entries Hl H. unfold run.
    rewrite (uploadBlobs_plan url root entries [] Hl).
    destruct H as (c & Hc & He & Hlt). unfold try_catch.
    rewrite (perform_all_abort _ [] k c e Hc He Hlt). reflexivity.
  - intros H. unfold run. rewrite deleteBlobs_plan.
    apply (first_failure_prefix _ k e listingEnd _ H).
  - intros Hnf Hle. unfold run. rewrite downloadBlobs_plan.
    fold (run (try_catch (perform_all (downloadPlan url root) ;; listingEnd)
      (fun error =>
         throw (Error ("Unable to download media files. " ++ message error))))).
    rewrite (no_failure_run _ _ _ Hnf).
    unfold try_catch, listingEnd. rewrite Hle. reflexivity.
  - intros Hnf Hle. unfold run. rewrite deleteBlobs_plan.
    fold (run (try_catch (perform_all (deletePlan url) ;; listingEnd)
      (fun error =>
         throw (Error ("Unable to delete media files. " ++ message error))))).
    rewrite (no_failure_run _ _ _ Hnf).
    unfold try_catch, listingEnd. rewrite Hle. reflexivity.
Qed.

(** C4, as the code does it.  [downloadBlobs] writes a blob to
    [<root>/<name>.<extension>] when the registry has an extension for
    its content type; when it has none, [mime.extension] returns
    [false], the test [extension != null] holds all the same, and the
    blob is written to [<root>/<name>.false].  For each blob the
    folder of the path, which is the path up to its last separator, is
    created with its parents before the blob is written. *)
Theorem download_path_mapping (url root : string) :
  (forall b e, extensions (contentType b) = Some e ->
               pathToFile root b = root ++ "/" ++ name b ++ "." ++ e) /\
  (forall b, extensions (contentType b) = None ->
             pathToFile root b = root ++ "/" ++ name b ++ ".false") /\
  (forall dir base, lacks "/" base = true ->
                    folderPath (dir ++ "/" ++ base) = dir) /\
  (no_failure (downloadPlan url root) -> listing_error w = None ->
   run (downloadBlobs url root)
   = (Return tt,
      (openContainer url ++ [Mkdir (path_resolve root) true]
         ++ flat_map
              (fun b =>
                 [ Mkdir (path_resolve (folderPath (pathToFile root b))) true;
                   DownloadToFile (name b) (pathToFile root b) ])
              (listing w))%list)).
Proof.
  split; [|split; [|split]].
  - intros b e. apply pathToFile_known.
  - intros b. apply pathToFile_unknown.
  - intros dir base. apply folderPath_app.
  - apply downloadBlobs_ok.
Qed.

(** C7, as the code does it.  A file whose extension has no content
    type in the registry is uploaded with the content type
    [application/octet-stream]; a blob whose content type has no
    extension in the registry is downloaded to [<root>/<name>.false],
    not to [<root>/<name>]. *)
Theorem unknown_content_type_fallback (root fileName : string) (b : blob) :
  extensions (contentType b) = None ->
  types fileName = None ->
  uploadContentType fileName = JS.Str "application/octet-stream" /\
  pathToFile root b = root ++ "/" ++ name b ++ ".false" /\
  pathToFile root b <> root ++ "/" ++ name b.
Proof.
  intros He Ht. split; [|split].
  - apply uploadContentType_unknown, Ht.
  - apply pathToFile_unknown, He.
  - rewrite (pathToFile_unknown root b He). intros H.
    apply (f_equal String.length) in H.
    rewrite !length_app in H. cbn in H. lia.
Qed.

(* ------------------------------------------------------------------- *)
(** *** More on the files and the paths *)

Lemma node_induction (P : node -> Prop) :
  P File ->
  (forall entries, Forall (fun e => P (snd e)) entries -> P (Dir entries)) ->
  forall n, P n.
Proof.
  intros HF HD. fix IH 1. intros [|entries].
  - exact HF.
  - apply HD. induction entries as [|[f c] rest IHr]; constructor.
    + apply IH.
    + exact IHr.
Qed.

(** Every name [listFilesInDirectory] collects under an entry starts
    with the name of the entry. *)
Lemma listFiles_extends (n : node) :
  forall file f, In f (listFiles file n) -> exists rest, f = file ++ rest.
Proof.
  induction n as [|entries IH] using node_induction; intros file f Hin.
  - destruct Hin as [<-|[]]. exists "". now rewrite append_nil_r.
  - cbn [listFiles] in Hin.
    induction entries as [|[g c] others IHo]; [destruct Hin|].
    inversion IH as [|? ? Hc Hothers]; subst.
    apply in_app_or in Hin as [Hin|Hin].
    + cbn [snd] in Hc. destruct (Hc _ _ Hin) as [rest ->].
      exists ("/" ++ g ++ rest). now rewrite !append_assoc.
    + apply (IHo Hothers Hin).
Qed.

Lemma listFiles_under (dir : string) (entries : list (string * node))
      (f : string) :
  In f (listFiles dir (Dir entries)) -> exists rel, f = dir ++ "/" ++ rel.
Proof.
  cbn [listFiles].
  induction entries as [|[g c] others IHo]; intros Hin; [destruct Hin|].
  apply in_app_or in Hin as [Hin|Hin].
  - destruct (listFiles_extends c _ _ Hin) as [rest ->].
    exists (g ++ rest). now rewrite !append_assoc.
  - apply (IHo Hin).
Qed.

Lemma listFiles_count (n : node) :
  forall file, List.length (listFiles file n) = countFiles n.
Proof.
  induction n as [|entries IH] using node_induction; intros file.
  - reflexivity.
  - cbn [listFiles countFiles].
    induction entries as [|[g c] rest IHr]; [reflexivity|].
    inversion IH as [|? ? Hc Hrest]; subst.
    rewrite List.length_app, (IHr Hrest). cbn [snd] in Hc. now rewrite Hc.
Qed.

Lemma split_head (s : string) (c : ascii) :
  exists k rest, JS.split s c = k :: rest /\ lacks c k = true.
Proof.
  induction s as [|x s IH]; cbn [JS.split].
  - exists "", []. now split.
  - destruct (Ascii.eqb x c) eqn:E.
    + exists "", (JS.split s c). now split.
    + destruct IH as (k & rest & -> & Hk).
      exists (String x k), rest. split; [reflexivity|].
      cbn [lacks]. now rewrite E, Hk.
Qed.

Lemma last_separator (c : ascii) (s : string) :
  lacks c s = false ->
  exists d base, s = d ++ String c base /\ lacks c base = true.
Proof.
  induction s as [|x s IH]; cbn [lacks]; [discriminate|].
  destruct (lacks c s) eqn:E.
  - rewrite andb_true_r. intros H. apply negb_false_iff in H.
    apply Ascii.eqb_eq in H. subst x. exists "", s. now split.
  - intros _. destruct (IH eq_refl) as (d & base & -> & Hb).
    exists (String x d), base. now split.
Qed.

(** The path of a blob, whatever its content type. *)
Lemma pathToFile_shape (root : string) (b : blob) :
  exists ext, pathToFile root b = root ++ "/" ++ name b ++ "." ++ ext.
Proof.
  unfold pathToFile, mime_extension.
  destruct (extensions (contentType b)) as [e|]; eexists; reflexivity.
Qed.

(** X1.  Every file name that [listFilesInDirectory] collects under a
    folder is the folder, a separator and a relative path, and the key
    [uploadBlobs] gives to the file is the first element of that
    relative path split at dots: the folder is removed at the start of
    the name and nowhere else. *)
Theorem upload_keys_are_relative (dir : string)
        (entries : list (string * node)) (f : string) :
  In f (listFiles dir (Dir entries)) ->
  exists rel, f = dir ++ "/" ++ rel /\
              blobKey dir f = JS.at0 (JS.split rel ".").
Proof.
  intros Hin. destruct (listFiles_under dir entries f Hin) as [rel ->].
  exists rel. split; [reflexivity|].
  unfold blobKey. rewrite <- (append_assoc dir "/"). now rewrite replace_prefix.
Qed.

(** X2.  [listFilesInDirectory] makes no call.  On a directory of which
    every part can be read it returns as many names as the tree has
    entries that are not directories: directories are not listed
    themselves, and a directory without such entries adds nothing.
    Where [readdirSync] throws on the directory it throws that error;
    and where the entries before some entry can be read and that entry
    is one [statSync] throws on, or a folder [readdirSync] throws on,
    it throws that error, whatever comes after. *)
Theorem listFilesInDirectory_counts_files (dir : string) :
  (forall entries,
      local w dir = Some (Dir entries) ->
      exists files,
        run (listFilesInDirectory dir) = (Return files, []) /\
        List.length files = countFiles (Dir entries)) /\
  (forall e,
      disk w dir = ScanError e ->
      run (listFilesInDirectory dir) = (Throw e, [])) /\
  (forall before f c after e,
      disk w dir = Entries (before ++ (f, c) :: after) ->
      readable (Folder before) <> None ->
      c = Lost e \/ c = Closed e ->
      run (listFilesInDirectory dir) = (Throw e, [])).
Proof.
  split; [|split].
  - intros entries Hl. exists (listFiles dir (Dir entries)). split.
    + unfold run. now apply listFilesInDirectory_readable.
    + apply listFiles_count.
  - intros e Hd. unfold run, listFilesInDirectory. now rewrite Hd.
  - intros before f c after e Hd Hb Hc.
    unfold run, listFilesInDirectory. rewrite Hd, visit_app, visit_cons.
    pose proof (visit_readable (Folder before) dir) as Hv.
    destruct (readable (Folder before)) as [n|]; [|now destruct Hb].
    rewrite Hv. now destruct Hc as [-> | ->].
Qed.

Lemma blobKey_dotless (root f : string) :
  exists k, blobKey root f = JS.Str k /\ lacks "." k = true.
Proof.
  unfold blobKey.
  destruct (split_head (JS.replace f (root ++ "/") "") ".")
    as (k & rest & -> & Hk).
  exists k. now split.
Qed.

(** X3.  The key [uploadBlobs] gives to a file is always a string, and
    it never contains a dot, whatever the folder and the file name. *)
Theorem blobKey_has_no_dot (root f : string) :
  exists k, blobKey root f = JS.Str k /\ lacks "." k = true.
Proof. apply blobKey_dotless. Qed.

(** X4.  The content type [uploadBlobs] sets is always a string that is
    not empty, whatever [mime.lookup] returns. *)
Theorem uploadContentType_is_string (f : string) :
  exists t, uploadContentType f = JS.Str t /\ t <> "".
Proof.
  unfold uploadContentType, mime_lookup, JS.or.
  destruct (types f) as [t|]; cbn.
  - destruct (String.eqb_spec t ""); cbn.
    + exists "application/octet-stream". split; [reflexivity | discriminate].
    + exists t. now split.
  - exists "application/octet-stream". split; [reflexivity | discriminate].
Qed.

(** X5.  Let [f] be a file name that [uploadBlobs] is given.  When [f]
    is the very path [downloadBlobs] wrote a blob to, the key of [f] is
    the name of the blob exactly when that name has no dot, whatever
    the content type of the blob; and whatever [f] is, a blob whose
    name has a dot is not uploaded back under its name.  (A blob is
    listed under the path it was written to when its name has no empty
    segment and no segment of dots only; of a file that is listed under
    another path, only the second part speaks.) *)
Theorem round_trip_iff_no_dot (root : string) (b : blob) (f : string) :
  (f = pathToFile root b ->
   (blobKey root f = JS.Str (name b) <-> lacks "." (name b) = true)) /\
  (lacks "." (name b) = false -> blobKey root f <> JS.Str (name b)).
Proof.
  split.
  2:{ intros Hdot H. destruct (blobKey_dotless root f) as (k & Hk & Hl).
      rewrite H in Hk. injection Hk as <-. congruence. }
  intros ->.
  destruct (pathToFile_shape root b) as [ext ->]. split.
  - intros H.
    destruct (blobKey_dotless root (root ++ "/" ++ name b ++ "." ++ ext))
      as (k & Hk & Hl).
    rewrite H in Hk. injection Hk as <-. exact Hl.
  - intros H. apply blobKey_cut, H.
Qed.

(** X6.  For every blob, the folder [downloadBlobs] creates before the
    transfer is the parent of the file it writes, and it is the root or
    a path that starts with the root: the path of the file is the
    folder, a separator and a name without separator. *)
Theorem download_folder_is_parent (root : string) (b : blob) :
  exists sub base,
    pathToFile root b = root ++ sub ++ "/" ++ base /\
    lacks "/" base = true /\
    folderPath (pathToFile root b) = root ++ sub.
Proof.
  destruct (pathToFile_shape root b) as [ext ->].
  destruct (last_separator "/" ("/" ++ name b ++ "." ++ ext) eq_refl)
    as (d & base & Hd & Hb).
  exists d, base. rewrite Hd. split; [|split].
  - reflexivity.
  - exact Hb.
  - rewrite <- (append_assoc root d). apply folderPath_app, Hb.
Qed.

(* ------------------------------------------------------------------- *)
(** *** More on the bulk operations *)

(** Whatever throws, the calls made are the first ones of the list, in
    order; and when nothing throws, all of them. *)
Lemma perform_all_prefix (plan tr : list effect) :
  exists k,
    snd (perform_all plan tr) = (tr ++ firstn k plan)%list /\
    (fst (perform_all plan tr) = Return tt -> firstn k plan = plan).
Proof.
  revert tr. induction plan as [|c plan IH]; intros tr.
  - exists O. cbn. rewrite app_nil_r. now split.
  - cbn [perform_all for_of]. unfold bind.
    assert (Hp : perform c tr
                 = match fails w tr c with
                   | Some err => (Throw err, (tr ++ [c])%list)
                   | None => (Return tt, (tr ++ [c])%list)
                   end).
    { unfold perform. destruct (fails w tr c); reflexivity. }
    rewrite Hp. clear Hp.
    destruct (fails w tr c) as [e|].
    + exists 1%nat. cbn. split; [reflexivity | discriminate].
    + fold (perform_all plan).
      destruct (IH (tr ++ [c])%list) as (k & Hlog & Hret).
      exists (S k). cbn [firstn]. split.
      * rewrite Hlog. now rewrite <- app_assoc.
      * intros H. now rewrite (Hret H).
Qed.

Lemma perform_all_return (plan tr tr' : list effect) :
  perform_all plan tr = (Return tt, tr') ->
  tr' = (tr ++ plan)%list /\
  forall i c, nth_error plan i = Some c ->
              fails w (tr ++ firstn i plan) c = None.
Proof.
  revert tr. induction plan as [|x plan IH]; intros tr.
  - cbn. intros [= <-]. rewrite app_nil_r. split; [reflexivity|].
    intros [|i] c; discriminate.
  - cbn [perform_all for_of]. unfold bind, perform at 1.
    destruct (fails w tr x) as [e|] eqn:E; [discriminate|].
    fold (perform_all plan). intros H.
    destruct (IH _ H) as (-> & Hnf). split.
    + now rewrite <- app_assoc.
    + intros [|i] c Hn.
      * cbn in Hn. injection Hn as <-. cbn. now rewrite app_nil_r.
      * cbn [firstn]. specialize (Hnf i c Hn).
        now rewrite <- app_assoc in Hnf.
Qed.

(** [uploadBlobs] in terms of calls, whatever the folder is. *)
Lemma uploadBlobs_calls (url root : string) (tr : list effect) :
  uploadBlobs url root tr
  = try_catch
      (perform_all (openContainer url) ;;
       fileNames <- listFilesInDirectory root ;;
       perform_all (map (uploadCall root) fileNames))
      (fun error =>
         throw (Error ("Unable to upload media files. " ++ message error)))
      tr.
Proof.
  unfold uploadBlobs, try_catch. f_equal.
  unfold openContainer. cbn [perform_all for_of]. unfold bind.
  destruct (perform _ tr) as [[[]|e] tr1]; [|reflexivity].
  destruct (perform _ tr1) as [[[]|e] tr2]; [|reflexivity].
  unfold ret.
  destruct (listFilesInDirectory root tr2) as [[files|e] tr3]; [|reflexivity].
  fold (perform_all (map (uploadCall root) files)).
  rewrite <- for_of_map. reflexivity.
Qed.

Lemma listFilesInDirectory_localFiles (root : string) (tr : list effect) :
  (exists e, listFilesInDirectory root tr = (Throw e, tr) /\
             forall entries, local w root <> Some (Dir entries)) \/
  (listFilesInDirectory root tr = (Return (localFiles root), tr) /\
   exists entries, local w root = Some (Dir entries)).
Proof.
  unfold localFiles. destruct (local w root) as [n|] eqn:Hl.
  - destruct (local_is_directory _ _ Hl) as [entries ->]. right.
    split; [now apply listFilesInDirectory_readable | now exists entries].
  - destruct (listFilesInDirectory_unreadable root tr Hl) as [e He].
    left. exists e. split; [exact He | discriminate].
Qed.

Lemma firstn_app_short {A} (k : nat) (l1 l2 : list A) :
  exists k', firstn k l1 = firstn k' (l1 ++ l2).
Proof.
  exists (Nat.min k (List.length l1)).
  rewrite firstn_app.
  replace (Nat.min k (List.length l1) - List.length l1)%nat with O by lia.
  cbn. rewrite app_nil_r.
  destruct (Nat.le_ge_cases k (List.length l1)).
  - now rewrite Nat.min_l.
  - rewrite Nat.min_r by lia. now rewrite !firstn_all2 by lia.
Qed.

Lemma firstn_app_long {A} (k : nat) (l1 l2 : list A) :
  exists k', (l1 ++ firstn k l2)%list = firstn k' (l1 ++ l2).
Proof.
  exists (List.length l1 + k)%nat.
  rewrite firstn_app.
  replace (List.length l1 + k - List.length l1)%nat with k by lia.
  now rewrite (@firstn_all2 _ (List.length l1 + k) l1) by lia.
Qed.

Lemma calls_prefix_of_plan (url root : string) :
  (exists k, snd (run (downloadBlobs url root))
             = firstn k (downloadPlan url root)) /\
  (exists k, snd (run (uploadBlobs url root))
             = firstn k (uploadPlan url root (localFiles root))) /\
  (exists k, snd (run (deleteBlobs url)) = firstn k (deletePlan url)).
Proof.
  split; [|split].
  - unfold run. rewrite downloadBlobs_plan. unfold try_catch, bind.
    destruct (perform_all_prefix (downloadPlan url root) []) as (k & Hk & _).
    exists k.
    destruct (perform_all (downloadPlan url root) []) as [[[]|e] tr1];
      cbn [snd] in *; subst tr1.
    + unfold listingEnd, throw, ret. destruct (listing_error w); reflexivity.
    + reflexivity.
  - unfold run. rewrite uploadBlobs_calls. unfold try_catch, bind, uploadPlan.
    destruct (perform_all_prefix (openContainer url) []) as (k & Hk & Hret).
    destruct (perform_all (openContainer url) []) as [[[]|e] tr1];
      cbn [snd fst] in *; subst tr1; cbn [app].
    + rewrite (Hret eq_refl).
      destruct (listFilesInDirectory_localFiles root (openContainer url))
        as [(e & -> & Hno) | (-> & _)].
      * cbn [snd throw]. destruct (firstn_app_long O (openContainer url)
                 (map (uploadCall root) (localFiles root))) as [k' Hk'].
        exists k'. rewrite <- Hk'. cbn [firstn]. now rewrite app_nil_r.
      * destruct (perform_all_prefix
                    (map (uploadCall root) (localFiles root))
                    (openContainer url)) as (j & Hj & _).
        destruct (firstn_app_long j (openContainer url)
                    (map (uploadCall root) (localFiles root))) as [k' Hk'].
        exists k'. rewrite <- Hk'.
        destruct (perform_all _ (openContainer url)) as [[[]|e] tr2];
          cbn [snd] in *; now subst tr2.
    + cbn [snd throw]. apply firstn_app_short.
  - unfold run. rewrite deleteBlobs_plan. unfold try_catch, bind.
    destruct (perform_all_prefix (deletePlan url) []) as (k & Hk & _).
    exists k.
    destruct (perform_all (deletePlan url) []) as [[[]|e] tr1];
      cbn [snd] in *; subst tr1.
    + unfold listingEnd, throw, ret. destruct (listing_error w); reflexivity.
    + reflexivity.
Qed.

(** X7.  In every world, whatever throws and wherever, the calls a
    bulk operation has made are the first calls of its plan, in the
    order of the plan ([uploadBlobs] plans one upload for each file
    under the folder, none when the folder is not a directory that can
    be read throughout): no call is made twice, none is skipped, no
    other call is made. *)
Theorem bulk_calls_follow_plan (url root : string) :
  (exists k, snd (run (downloadBlobs url root))
             = firstn k (downloadPlan url root)) /\
  (exists k, snd (run (uploadBlobs url root))
             = firstn k (uploadPlan url root (localFiles root))) /\
  (exists k, snd (run (deleteBlobs url)) = firstn k (deletePlan url)).
Proof. apply calls_prefix_of_plan. Qed.

Lemma forallb_firstn {A} (f : A -> bool) (k : nat) (l : list A) :
  forallb f l = true -> forallb f (firstn k l) = true.
Proof.
  revert k. induction l as [|x l IH]; intros [|k] H; try reflexivity.
  cbn in *. apply andb_prop in H as [Hx Hl]. now rewrite Hx, IH.
Qed.

(** X8.  In every world, whatever throws, [downloadBlobs] only opens
    the container, creates folders (with their parents) and downloads;
    [uploadBlobs] only opens the container and uploads; [deleteBlobs]
    only opens the container and deletes.  So a download never deletes
    or overwrites a blob, a deletion never touches a local file, and
    none of them calls [https.request]. *)
Theorem bulk_calls_stay_in_kind (url root : string) :
  forallb downloading (snd (run (downloadBlobs url root))) = true /\
  forallb uploading (snd (run (uploadBlobs url root))) = true /\
  forallb deleting (snd (run (deleteBlobs url))) = true /\
  httpsRequests (snd (run (downloadBlobs url root))) = O /\
  httpsRequests (snd (run (uploadBlobs url root))) = O /\
  httpsRequests (snd (run (deleteBlobs url))) = O.
Proof.
  assert (Hd : forallb downloading (downloadPlan url root) = true).
  { unfold downloadPlan, openContainer. cbn [app forallb downloading opening].
    induction (listing w) as [|b l IH]; [reflexivity|].
    cbn [flat_map app downloadCalls forallb downloading]. exact IH. }
  assert (Hu : forall l, forallb uploading (uploadPlan url root l) = true).
  { intros l. unfold uploadPlan, openContainer.
    cbn [app forallb uploading opening].
    induction l as [|f l IH]; [reflexivity|].
    cbn [map forallb uploadCall uploading]. exact IH. }
  specialize (Hu (localFiles root)).
  assert (He : forallb deleting (deletePlan url) = true).
  { unfold deletePlan, openContainer. cbn [app forallb deleting opening].
    induction (listing w) as [|b l IH]; [reflexivity|].
    cbn [map forallb deleting]. exact IH. }
  destruct (calls_prefix_of_plan url root)
    as ((k1 & H1) & (k2 & H2) & (k3 & H3)).
  assert (Hno : forall (f : effect -> bool) l,
             (forall c, f c = true ->
                        match c with HttpsRequest _ _ => False | _ => True end) ->
             forallb f l = true -> httpsRequests l = O).
  { intros f l Hf. induction l as [|c l IH]; [reflexivity|].
    cbn [forallb]. intros H. apply andb_prop in H as [Hc Hl].
    specialize (Hf c Hc). destruct c; try contradiction; cbn; now apply IH. }
  rewrite H1, H2, H3.
  pose proof (forallb_firstn downloading k1 _ Hd) as Hd'.
  pose proof (forallb_firstn uploading k2 _ Hu) as Hu'.
  pose proof (forallb_firstn deleting k3 _ He) as He'.
  repeat split; try assumption.
  - apply (Hno downloading); [|exact Hd']. intros [] H; try exact I; discriminate.
  - apply (Hno uploading); [|exact Hu']. intros [] H; try exact I; discriminate.
  - apply (Hno deleting); [|exact He']. intros [] H; try exact I; discriminate.
Qed.

(** X9.  A bulk operation returns exactly when none of the calls of its
    plan throws and the listing does not fail (for [uploadBlobs]: when
    the folder is a directory of which every part can be read, so that
    neither [readdirSync] nor [statSync] throws, and no call throws);
    it has then made all the calls of its plan, each once and in
    order.  In every other case it throws. *)
Theorem bulk_returns_iff_all_succeed (url root : string) :
  (fst (run (downloadBlobs url root)) = Return tt
   <-> no_failure (downloadPlan url root) /\ listing_error w = None) /\
  (fst (run (uploadBlobs url root)) = Return tt
   <-> exists entries,
         local w root = Some (Dir entries) /\
         no_failure (uploadPlan url root (listFiles root (Dir entries)))) /\
  (fst (run (deleteBlobs url)) = Return tt
   <-> no_failure (deletePlan url) /\ listing_error w = None) /\
  (fst (run (downloadBlobs url root)) = Return tt ->
   snd (run (downloadBlobs url root)) = downloadPlan url root) /\
  (fst (run (uploadBlobs url root)) = Return tt ->
   snd (run (uploadBlobs url root)) = uploadPlan url root (localFiles root)) /\
  (fst (run (deleteBlobs url)) = Return tt ->
   snd (run (deleteBlobs url)) = deletePlan url).
Proof.
  assert (Hgen : forall plan msg,
    let op := try_catch (perform_all plan ;; listingEnd)
                (fun error => throw (Error (msg ++ message error))) in
    (fst (op []) = Return tt <-> no_failure plan /\ listing_error w = None) /\
    (fst (op []) = Return tt -> snd (op []) = plan)).
  { intros plan msg op. unfold op, try_catch, bind.
    destruct (perform_all plan []) as [[[]|e] tr1] eqn:E.
    - destruct (perform_all_return plan [] tr1 E) as (-> & Hnf).
      unfold listingEnd, throw, ret.
      destruct (listing_error w) as [e|]; cbn; split; try split;
        try discriminate; try reflexivity.
      + intros [_ H]. discriminate.
      + intros _. split; [exact Hnf | reflexivity].
    - cbn. split; [split|]; try discriminate.
      intros [Hnf _]. rewrite (perform_all_ok plan [] Hnf) in E. discriminate. }
  assert (Hup :
    (fst (run (uploadBlobs url root)) = Return tt
     <-> exists entries,
           local w root = Some (Dir entries) /\
           no_failure (uploadPlan url root (listFiles root (Dir entries)))) /\
    (fst (run (uploadBlobs url root)) = Return tt ->
     snd (run (uploadBlobs url root)) = uploadPlan url root (localFiles root))).
  { unfold run.
    destruct (listFilesInDirectory_localFiles root (openContainer url))
      as [(e & Hl & Hno) | (Hl & entries & Hdir)].
    - rewrite uploadBlobs_calls. unfold try_catch, bind.
      destruct (perform_all (openContainer url) []) as [[[]|e'] tr1] eqn:E.
      + destruct (perform_all_return _ [] tr1 E) as (-> & _).
        cbn [app]. rewrite Hl. cbn. split; [split|]; try discriminate.
        intros (entries & Hd & _). now apply Hno in Hd.
      + cbn. split; [split|]; try discriminate.
        intros (entries & Hd & _). now apply Hno in Hd.
    - rewrite (uploadBlobs_plan url root entries [] Hdir).
      unfold localFiles. rewrite Hdir. unfold try_catch.
      set (plan := uploadPlan url root (listFiles root (Dir entries))).
      destruct (perform_all plan []) as [[[]|e'] tr1] eqn:E.
      + destruct (perform_all_return plan [] tr1 E) as (-> & Hnf).
        cbn [fst snd app]. split; [split|]; try reflexivity.
        intros _. exists entries. now split.
      + cbn [fst snd throw]. split; [split|]; try discriminate.
        intros (entries' & Hd & Hnf). injection Hd as <-. fold plan in Hnf.
        rewrite (perform_all_ok plan [] Hnf) in E. discriminate. }
  pose proof (Hgen (downloadPlan url root) "Unable to download media files. ")
    as [Hd1 Hd2].
  pose proof (Hgen (deletePlan url) "Unable to delete media files. ")
    as [He1 He2].
  destruct Hup as [Hu1 Hu2].
  unfold run in *.
  rewrite downloadBlobs_plan, deleteBlobs_plan.
  split; [exact Hd1|]. split; [exact Hu1|]. split; [exact He1|].
  split; [exact Hd2|]. split; [exact Hu2 | exact He2].
Qed.

(** X10.  When the local folder is not a directory that can be read
    throughout (it does not exist, it is a file, an entry below it is a
    link to nothing, a folder below it may not be read) and the
    container can be opened, [uploadBlobs] throws the error of
    [uploadBlobs] after the two calls that open the container, and
    uploads nothing. *)
Theorem upload_from_missing_folder (url root : string) :
  (forall entries, local w root <> Some (Dir entries)) ->
  no_failure (openContainer url) ->
  exists cause,
    run (uploadBlobs url root)
    = (Throw (Error ("Unable to upload media files. " ++ cause)),
       openContainer url).
Proof.
  intros Hno Hnf. unfold run. rewrite uploadBlobs_calls.
  unfold try_catch, bind. rewrite (perform_all_ok _ [] Hnf). cbn [app].
  destruct (listFilesInDirectory_localFiles root (openContainer url))
    as [(e & -> & _) | (_ & entries & Hd)].
  - exists (message e). reflexivity.
  - now apply Hno in Hd.
Qed.

(* ------------------------------------------------------------------- *)
(** *** More on the request *)

Lemma byteLength_utf8 (s : string) :
  JS.byteLength s = Z.of_nat (List.length (JS.utf8 s)).
Proof.
  induction s as [|c s IH]; [reflexivity|].
  cbn [JS.byteLength JS.utf8]. rewrite IH.
  destruct (Nat.ltb_spec (nat_of_ascii c) 128);
    destruct (Z.ltb_spec (Z.of_nat (nat_of_ascii c)) 128); try lia;
    cbn [List.length]; lia.
Qed.

(** X11.  [request] writes a body and declares its length together or
    not at all.  With a body that is not empty it sends [If-Match],
    [Content-Type], [Authorization] (the token as it is) and a
    [Content-Length] that is the number of bytes of the body in UTF-8,
    and writes that body.  Without a body, or with the empty string, it
    sends the three headers only and writes nothing.  In both cases it
    makes one [https.request] on port 443 and ends it. *)
Theorem request_body_and_length
        (method url accessToken : string) (body : option string) :
  let o := requestOptions method accessToken body in
  let log := snd (run (request method url accessToken body)) in
  let fixedHeaders :=
    [ ("If-Match", "*"); ("Content-Type", "application/json");
      ("Authorization", accessToken) ] in
  port o = 443 /\
  (forall b, body = Some b -> b <> "" ->
     log = [HttpsRequest url o; ReqWrite b; ReqEnd] /\
     headers o
     = (fixedHeaders
          ++ [("Content-Length",
               JS.number_to_string (Z.of_nat (List.length (JS.utf8 b))))])%list) /\
  (body = None \/ body = Some "" ->
     log = [HttpsRequest url o; ReqEnd] /\ headers o = fixedHeaders).
Proof.
  cbv zeta. split; [reflexivity|]. split.
  - intros b Hb Hne. unfold run, request, requestOptions.
    rewrite (proj2 (given_Some body b) (conj Hb Hne)).
    rewrite byteLength_utf8. split; reflexivity.
  - intros H. unfold run, request, requestOptions.
    rewrite (proj2 (given_None body) H). split; reflexivity.
Qed.

Lemma start_step_extends (c : ascii) (out : list JSON.token)
      (st : JSON.lex_state) (out' : list JSON.token) :
  JSON.start_step c out = Some (st, out') ->
  exists extra, out' = (extra ++ out)%list.
Proof.
  unfold JSON.start_step.
  repeat match goal with
         | |- context [if ?b then _ else _] => destruct b
         end;
    intros [= <- <-] || discriminate;
    first [ now exists [] | now eexists (_ :: nil) ].
Qed.

Lemma lex_step_extends (st : JSON.lex_state) (c : ascii)
      (out : list JSON.token) (st' : JSON.lex_state)
      (out' : list JSON.token) :
  JSON.lex_step st c out = Some (st', out') ->
  exists extra, out' = (extra ++ out)%list.
Proof.
  destruct st as [|acc|acc|acc todo v|ph acc|rest tok]; cbn [JSON.lex_step].
  - apply start_step_extends.
  - repeat match goal with
           | |- context [if ?b then _ else _] => destruct b
           end;
      intros [= <- <-] || discriminate;
      first [ now exists [] | now eexists (_ :: nil) ].
  - destruct (Ascii.eqb c "u").
    + intros [= <- <-]. now exists [].
    + destruct (JSON.escape_value c); [|discriminate].
      intros [= <- <-]. now exists [].
  - destruct (JSON.hex_value c); [|discriminate].
    destruct todo as [|[|todo]]; intros [= <- <-]; now exists [].
  - destruct (JSON.num_step ph c).
    + intros [= <- <-]. now exists [].
    + destruct (JSON.num_accepting ph); [|discriminate].
      intros H. apply start_step_extends in H as [extra ->].
      exists (extra ++ [JSON.TNum acc])%list. now rewrite <- app_assoc.
  - destruct rest as [|d [|d' rest]]; [discriminate| |];
      destruct (Ascii.eqb c d); try discriminate;
      intros [= <- <-]; first [ now exists [] | now eexists (_ :: nil) ].
Qed.

(** The tokens read first stay first. *)
Lemma lex_extends (s : string) :
  forall st out toks,
    JSON.lex st s out = Some toks ->
    exists more, toks = (rev out ++ more)%list.
Proof.
  induction s as [|c s IH]; intros st out toks; cbn [JSON.lex].
  - destruct st; try discriminate.
    + intros [= <-]. exists []. now rewrite app_nil_r.
    + destruct (JSON.num_accepting ph); [|discriminate].
      intros [= <-]. exists [JSON.TNum acc]. reflexivity.
  - destruct (JSON.lex_step st c out) as [[st' out']|] eqn:E; [|discriminate].
    intros H. apply lex_step_extends in E as [extra ->].
    apply IH in H as [more ->]. rewrite rev_app_distr, <- app_assoc.
    now eexists.
Qed.

Lemma parse_step_keeps_object (m : JSON.mode) (stk : list JSON.frame)
      (tok : JSON.token) (m' : JSON.mode) (stk' : list JSON.frame) :
  readingObject m stk = true ->
  JSON.parse_step m stk tok = Some (m', stk') ->
  readingObject m' stk' = true.
Proof.
  destruct m; destruct tok; cbn [JSON.parse_step]; try discriminate;
    destruct stk as [|[a1|a1 [k1|]] [|[a2|a2 [k2|]] rest]];
    cbn; try discriminate;
    intros H [= <- <-]; cbn; solve [reflexivity | assumption | discriminate].
Qed.

Lemma parse_tokens_object (toks : list JSON.token) :
  forall m stk v,
    readingObject m stk = true ->
    JSON.parse_tokens m stk toks = Some v ->
    exists ms, v = JSON.JObject ms.
Proof.
  induction toks as [|tok toks IH]; intros m stk v Hr; cbn [JSON.parse_tokens].
  - destruct m; try discriminate. intros [= <-].
    destruct v0; try discriminate. now eexists.
  - destruct (JSON.parse_step m stk tok) as [[m' stk']|] eqn:E; [|discriminate].
    apply (IH m' stk' v). apply (parse_step_keeps_object _ _ _ _ _ Hr E).
Qed.

(** A text that starts with an opening brace parses to an object, if it
    parses. *)
Lemma parse_brace_object (data : string) (j : JSON.json) :
  JS.startsWith data "{" = true ->
  JSON.parse data = Some j ->
  exists ms, j = JSON.JObject ms.
Proof.
  unfold JS.startsWith, JSON.parse. destruct data as [|c data]; [discriminate|].
  cbn [String.prefix]. destruct (ascii_dec "{" c) as [<-|]; [|discriminate].
  intros _. change (JSON.lex JSON.LStart (String "{" data) [])
    with (JSON.lex JSON.LStart data [JSON.TLBrace]).
  destruct (JSON.lex JSON.LStart data [JSON.TLBrace]) as [toks|] eqn:E;
    [|discriminate].
  apply lex_extends in E as [more ->]. cbn [rev app JSON.parse_tokens].
  change (JSON.parse_step JSON.MValue [] JSON.TLBrace)
    with (Some (JSON.MObjStart, [JSON.FObj [] None])).
  apply parse_tokens_object. reflexivity.
Qed.

(** X12.  When the promise of [request] resolves with a parsed value,
    that value is an object: arrays, strings, numbers, [true], [false]
    and [null] are never parsed (such a body resolves as the text it
    is), so reading a property of the value never throws. *)
Theorem request_parses_objects_only
        (method url accessToken : string) (body : option string)
        (j : JSON.json) :
  fst (run (request method url accessToken body)) = Return (Resolved (Parsed j)) ->
  (exists ms, j = JSON.JObject ms) /\
  (exists v, containerSasUrl (Parsed j) = Return v).
Proof.
  unfold run, request. cbn [fst]. unfold settle.
  destruct (network w url (requestOptions method accessToken body))
    as [statusCode statusMessage chunks|e]; [|discriminate].
  unfold on_end.
  intros H.
  assert (Hobj : exists ms, j = JSON.JObject ms).
  { destruct ((statusCode =? 200) || (statusCode =? 201)).
    - destruct (JS.startsWith (String.concat "" chunks) "{") eqn:Hs;
        [|discriminate].
      destruct (JSON.parse (String.concat "" chunks)) as [j'|] eqn:Hp;
        [|discriminate].
      injection H as <-. apply (parse_brace_object _ _ Hs Hp).
    - repeat match type of H with
             | context [if ?b then _ else _] => destruct b
             end; discriminate. }
  split; [exact Hobj|]. destruct Hobj as [ms ->]. now eexists.
Qed.

(* ------------------------------------------------------------------- *)
(** *** The callers of [request], and the script *)

(** What [publish] comes to, by what the promise of its request comes
    to. *)
Lemma publish_settled (endpoint : option string) (token : string)
      (tr : list effect) :
  let o := requestOptions "POST" token None in
  publish endpoint token tr
  = (match settle (publishUrl endpoint) (network w (publishUrl endpoint) o) with
     | Resolved _ => Fulfilled tt
     | Rejected e =>
         Failed (Error ("Unable to schedule website publishing. " ++ message e))
     | Uncaught e => Pending e
     end,
     (tr ++ [HttpsRequest (publishUrl endpoint) o; ReqEnd])%list).
Proof.
  cbv zeta. unfold publish, async_try, async_bind, await_request, request.
  cbn [given arg app].
  destruct (settle _ _); reflexivity.
Qed.

Lemma settle_resolved_iff (url : string) (r : reply) :
  (exists v, settle url r = Resolved v)
  <-> exists statusCode statusMessage chunks,
        r = Response statusCode statusMessage chunks /\
        (statusCode = 200 \/ statusCode = 201) /\
        (JS.startsWith (String.concat "" chunks) "{" = false \/
         JSON.parse (String.concat "" chunks) <> None).
Proof.
  split.
  - intros [v H]. destruct r as [statusCode statusMessage chunks|e];
      [|discriminate].
    exists statusCode, statusMessage, chunks. split; [reflexivity|].
    cbn [settle] in H. unfold on_end in H.
    destruct (Z.eqb_spec statusCode 200) as [->|H200].
    + split; [now left|]. cbn in H.
      destruct (JS.startsWith _ "{"); [|now left].
      right. destruct (JSON.parse _); [discriminate | discriminate H].
    + destruct (Z.eqb_spec statusCode 201) as [->|H201].
      * split; [now right|]. cbn in H.
        destruct (JS.startsWith _ "{"); [|now left].
        right. destruct (JSON.parse _); [discriminate | discriminate H].
      * cbn in H.
        repeat match type of H with
               | context [if ?b then _ else _] => destruct b
               end; discriminate.
  - intros (statusCode & statusMessage & chunks & -> & Hs & Hb).
    cbn [settle]. unfold on_end.
    assert (E : (statusCode =? 200) || (statusCode =? 201) = true)
      by (destruct Hs as [-> | ->]; reflexivity).
    rewrite E. destruct (JS.startsWith _ "{") eqn:Hp.
    + destruct Hb as [Hb|Hb]; [discriminate|].
      destruct (JSON.parse _); [now eexists | contradiction].
    + now eexists.
Qed.

(** X13.  [publish] is fulfilled exactly when the response has the
    status 200 or 201 and its body either does not start with an
    opening brace (such as the literal [OK] the service answers) or is
    JSON; the body is not looked at otherwise. *)
Theorem publish_fulfils_iff (endpoint : option string) (token : string) :
  fst (publish endpoint token []) = Fulfilled tt
  <-> exists statusCode statusMessage chunks,
        network w (publishUrl endpoint) (requestOptions "POST" token None)
        = Response statusCode statusMessage chunks /\
        (statusCode = 200 \/ statusCode = 201) /\
        (JS.startsWith (String.concat "" chunks) "{" = false \/
         JSON.parse (String.concat "" chunks) <> None).
Proof.
  rewrite publish_settled. cbn [fst].
  rewrite <- (settle_resolved_iff (publishUrl endpoint)). split.
  - destruct (settle _ _) as [v|e|e]; try discriminate. intros _. now exists v.
  - intros [v ->]. reflexivity.
Qed.

(** X14.  [publish] makes one request, whatever the answer: a [POST]
    without body to [https://<endpoint>/publish], with the token as
    [Authorization].  When that request is rejected, [publish] is
    rejected with a new error whose message is [Unable to schedule
    website publishing. ] followed by the message of the rejection; the
    [code] of the rejection ([NotFound], [Unauthorized], ...) is not
    kept. *)
Theorem publish_one_request (endpoint : option string) (token : string) :
  let url := publishUrl endpoint in
  let o := Options 443 "POST"
             [ ("If-Match", "*"); ("Content-Type", "application/json");
               ("Authorization", token) ] in
  snd (publish endpoint token []) = [HttpsRequest url o; ReqEnd] /\
  (forall e, settle url (network w url o) = Rejected e ->
     fst (publish endpoint token [])
     = Failed (Error ("Unable to schedule website publishing. " ++ message e))) /\
  (forall e, fst (publish endpoint token []) = Failed e ->
     code e = None /\
     exists cause,
       message e = "Unable to schedule website publishing. " ++ cause).
Proof.
  cbv zeta. rewrite publish_settled. cbn [fst snd app].
  change (requestOptions "POST" token None)
    with (Options 443 "POST"
            [ ("If-Match", "*"); ("Content-Type", "application/json");
              ("Authorization", token) ]).
  split; [reflexivity|]. split.
  - intros e ->. reflexivity.
  - intros e. destruct (settle _ _) as [v|e'|e']; try discriminate.
    intros [= <-]. split; [reflexivity | now eexists].
Qed.

(** The script, when the command line passes and a token is
    resolved. *)
Lemma script_with_credential (destToken destId destKey publishEndpoint
        : option string) (t : string) :
  yargs_accepts destToken destId destKey publishEndpoint = true ->
  run (getTokenOrThrow destToken destId destKey) = (Return t, []) ->
  script destToken destId destKey publishEndpoint []
  = (match fst (publish publishEndpoint t []) with
     | Fulfilled _ => Done
     | Failed e => ExitCode1 ("Unable to complete migration. " ++ message e)
     | Pending e => UncaughtException e
     end,
     snd (publish publishEndpoint t [])).
Proof.
  unfold run. intros Hy H.
  unfold script, runScript, async_try, async_bind, await_call.
  rewrite Hy, H.
  destruct (publish publishEndpoint t []) as [[[]|e|e] tr]; reflexivity.
Qed.

(** X15.  On a command line that [yargs] lets pass and that holds no
    credentials (no token, or an empty one, and an identifier or a key
    that is missing or empty: so when none of the three options is
    given) the script prints [Unable to complete migration. You need to
    specify either: token or id AND key], sets the exit code 1 and
    makes no call at all: nothing is sent to the endpoint. *)
Theorem script_without_credentials
        (destToken destId destKey publishEndpoint : option string) :
  yargs_accepts destToken destId destKey publishEndpoint = true ->
  destToken = None \/ destToken = Some "" ->
  (destId = None \/ destId = Some "") \/ (destKey = None \/ destKey = Some "") ->
  script destToken destId destKey publishEndpoint []
  = (ExitCode1
       "Unable to complete migration. You need to specify either: token or id AND key",
     []).
Proof.
  intros Hy Ht Hik.
  unfold script, runScript, async_try, async_bind, await_call. rewrite Hy.
  unfold getTokenOrThrow. rewrite (proj2 (given_None destToken) Ht).
  destruct Hik as [Hi|Hk].
  - rewrite (proj2 (given_None destId) Hi). reflexivity.
  - rewrite (proj2 (given_None destKey) Hk).
    destruct (given destId); reflexivity.
Qed.

(** X16.  On a command line that [yargs] lets pass: with a token alone,
    the script sends it as it is in the [Authorization] header of its
    one request; with an identifier and a key and no token, it sends
    the credential derived from them.  It prints [DONE] when [publish]
    is fulfilled, and when the request is rejected it prints [Unable to
    complete migration. Unable to schedule website publishing. ] and
    the message of the rejection, with the exit code 1. *)
Theorem script_sends_credential
        (destToken destId destKey publishEndpoint : option string)
        (t : string) :
  yargs_accepts destToken destId destKey publishEndpoint = true ->
  run (getTokenOrThrow destToken destId destKey) = (Return t, []) ->
  let url := publishUrl publishEndpoint in
  let o := Options 443 "POST"
             [ ("If-Match", "*"); ("Content-Type", "application/json");
               ("Authorization", t) ] in
  snd (script destToken destId destKey publishEndpoint [])
  = [HttpsRequest url o; ReqEnd] /\
  (forall v, settle url (network w url o) = Resolved v ->
     fst (script destToken destId destKey publishEndpoint []) = Done) /\
  (forall e, settle url (network w url o) = Rejected e ->
     fst (script destToken destId destKey publishEndpoint [])
     = ExitCode1 ("Unable to complete migration. "
                    ++ "Unable to schedule website publishing. " ++ message e)) /\
  (forall e, settle url (network w url o) = Uncaught e ->
     fst (script destToken destId destKey publishEndpoint [])
     = UncaughtException e).
Proof.
  intros Hy H. cbv zeta.
  rewrite (script_with_credential _ _ _ _ t Hy H), publish_settled.
  cbn [fst snd app].
  change (requestOptions "POST" t None)
    with (Options 443 "POST"
            [ ("If-Match", "*"); ("Content-Type", "application/json");
              ("Authorization", t) ]).
  split; [reflexivity|]. split; [|split].
  - intros v ->. reflexivity.
  - intros e ->. reflexivity.
  - intros e ->. reflexivity.
Qed.

(** X17.  When no endpoint is given, the script does not skip the
    publishing: on a command line with a token and nothing else, which
    [yargs] lets pass, it posts to [https://undefined/publish]. *)
Theorem script_without_endpoint (t : string) :
  yargs_accepts (Some t) None None None = true ->
  t <> "" ->
  exists o,
    snd (script (Some t) None None None [])
    = [HttpsRequest "https://undefined/publish" o; ReqEnd] /\
    method o = "POST" /\ In ("Authorization", t) (headers o).
Proof.
  intros Hy Ht.
  assert (H : run (getTokenOrThrow (Some t) None None) = (Return t, [])).
  { unfold run, getTokenOrThrow.
    now rewrite (proj2 (given_Some (Some t) t) (conj eq_refl Ht)). }
  rewrite (script_with_credential _ _ _ _ t Hy H), publish_settled.
  cbn [snd app]. eexists. split; [reflexivity|].
  split; [reflexivity|]. cbn. auto.
Qed.

(** What [getStorageSasToken] comes to, by what the promise of its
    request comes to. *)
Lemma getStorageSasToken_settled (endpoint token : string) (tr : list effect) :
  let url := listSecretsUrl endpoint in
  let o := requestOptions "POST" token None in
  getStorageSasToken endpoint token tr
  = (match settle url (network w url o) with
     | Resolved v =>
         match containerSasUrl v with
         | Return x => Fulfilled x
         | Throw e => Failed e
         end
     | Rejected e => Failed e
     | Uncaught e => Pending e
     end,
     (tr ++ [HttpsRequest url o; ReqEnd])%list).
Proof.
  cbv zeta. unfold getStorageSasToken, async_bind, await_request, request.
  cbn [given arg app].
  destruct (settle _ _) as [v|e|e]; try reflexivity.
  destruct (containerSasUrl v); reflexivity.
Qed.

Lemma settle_parsed_object (url : string) (r : reply) (j : JSON.json) :
  settle url r = Resolved (Parsed j) -> exists ms, j = JSON.JObject ms.
Proof.
  destruct r as [statusCode statusMessage chunks|e]; [|discriminate].
  cbn [settle]. unfold on_end.
  destruct ((statusCode =? 200) || (statusCode =? 201)).
  - destruct (JS.startsWith (String.concat "" chunks) "{") eqn:Hs;
      [|discriminate].
    destruct (JSON.parse (String.concat "" chunks)) as [j'|] eqn:Hp;
      [|discriminate].
    intros [= <-]. apply (parse_brace_object _ _ Hs Hp).
  - intros H.
    repeat match type of H with
           | context [if ?b then _ else _] => destruct b
           end; discriminate.
Qed.

(** X18.  Without a token (none, or the empty string),
    [getStorageSasTokenOrThrow] is rejected with [Storage connection
    could not be retrieved] and makes no call; with a token it is
    [getStorageSasToken]. *)
Theorem getStorageSasTokenOrThrow_needs_token
        (endpoint : string) (token : option string) :
  (token = None \/ token = Some "" ->
   getStorageSasTokenOrThrow endpoint token []
   = (Failed (Error "Storage connection could not be retrieved"), [])) /\
  (forall t, token = Some t -> t <> "" ->
   getStorageSasTokenOrThrow endpoint token []
   = getStorageSasToken endpoint t []).
Proof.
  split.
  - intros H. unfold getStorageSasTokenOrThrow.
    now rewrite (proj2 (given_None token) H).
  - intros t Ht Hne. unfold getStorageSasTokenOrThrow.
    now rewrite (proj2 (given_Some token t) (conj Ht Hne)).
Qed.

(** X19.  [getStorageSasToken] makes one [POST] without body to the
    [listSecrets] address of the endpoint.  It is rejected exactly when
    its request is rejected, and then with the rejection itself, which
    keeps its [code] (it is not wrapped, unlike in [publish]).  When the
    body is an object, it is fulfilled with the last member named
    [containerSasUrl], or with [undefined] when there is none; when the
    body is a text that is not parsed, such as [OK], it is fulfilled
    with [undefined] as well: a missing address is not an error
    here. *)
Theorem getStorageSasToken_result (endpoint token : string) :
  let url := listSecretsUrl endpoint in
  let o := requestOptions "POST" token None in
  let settled := settle url (network w url o) in
  let result := fst (getStorageSasToken endpoint token []) in
  snd (getStorageSasToken endpoint token []) = [HttpsRequest url o; ReqEnd] /\
  (forall e, result = Failed e <-> settled = Rejected e) /\
  (forall ms, settled = Resolved (Parsed (JSON.JObject ms)) ->
     result = Fulfilled (member (codeUnits "containerSasUrl") ms)) /\
  (forall s, settled = Resolved (Text s) -> result = Fulfilled None).
Proof.
  cbv zeta. rewrite getStorageSasToken_settled. cbn [fst snd app].
  split; [reflexivity|]. split; [|split].
  - intros e. destruct (settle _ _) as [[j|s]|e'|e'] eqn:E.
    + destruct (settle_parsed_object _ _ _ E) as [ms ->]. cbn.
      split; discriminate.
    + cbn. split; discriminate.
    + split; intros [= ->]; reflexivity.
    + split; discriminate.
  - intros ms ->. reflexivity.
  - intros s ->. reflexivity.
Qed.

(* ------------------------------------------------------------------- *)
(** *** More on the expiry *)

Lemma days_of_civil_of_days (z : Z) :
  let '(y, m, d) := Moment.civil_of_days z in days_of_civil y m d = z.
Proof.
  unfold Moment.civil_of_days, days_of_civil.
  set (z' := z + 719468).
  set (era := z' / 146097).
  set (doe := z' - era * 146097).
  assert (Hdoe : 0 <= doe < 146097)
    by (unfold doe, era; Z.to_euclidean_division_equations; lia).
  set (yoe := (doe - doe / 1460 + doe / 36524 - doe / 146096) / 365).
  assert (Hyoe : 0 <= yoe <= 399)
    by (unfold yoe; Z.to_euclidean_division_equations; lia).
  set (doy := doe - (365 * yoe + yoe / 4 - yoe / 100)).
  assert (Hdoy : 0 <= doy <= 365)
    by (unfold doy, yoe; Z.to_euclidean_division_equations; lia).
  set (mp := (5 * doy + 2) / 153).
  assert (Hmp : 0 <= mp <= 11)
    by (unfold mp; Z.to_euclidean_division_equations; lia).
  set (d := doy - (153 * mp + 2) / 5 + 1).
  set (m := if mp <? 10 then mp + 3 else mp - 9).
  assert (Hy' : (if m <=? 2
                 then (if m <=? 2 then yoe + era * 400 + 1
                       else yoe + era * 400) - 1
                 else (if m <=? 2 then yoe + era * 400 + 1
                       else yoe + era * 400))
                = yoe + era * 400)
    by (destruct (m <=? 2); lia).
  rewrite Hy'.
  assert (Hmp' : (if 2 <? m then m - 3 else m + 9) = mp).
  { unfold m. destruct (Z.ltb_spec mp 10).
    - destruct (Z.ltb_spec 2 (mp + 3)); lia.
    - destruct (Z.ltb_spec 2 (mp - 9)); lia. }
  rewrite Hmp'.
  replace ((yoe + era * 400) / 400) with era
    by (Z.to_euclidean_division_equations; lia).
  replace (yoe + era * 400 - era * 400) with yoe by lia.
  unfold d.
  replace ((153 * mp + 2) / 5 + (doy - (153 * mp + 2) / 5 + 1) - 1)
    with doy by lia.
  unfold doy, doe, z'. lia.
Qed.

Lemma civil_of_days_inj (z1 z2 : Z) :
  Moment.civil_of_days z1 = Moment.civil_of_days z2 -> z1 = z2.
Proof.
  intros H. pose proof (days_of_civil_of_days z1) as H1.
  pose proof (days_of_civil_of_days z2) as H2. rewrite H in H1.
  destruct (Moment.civil_of_days z2) as [[y m] d]. congruence.
Qed.

Lemma append_inj_length (a a' r r' : string) :
  String.length a = String.length a' ->
  a ++ r = a' ++ r' -> a = a' /\ r = r'.
Proof.
  revert a'. induction a as [|x a IH]; intros [|x' a'] Hl H;
    try discriminate.
  - now split.
  - cbn in Hl, H. injection H as -> H. injection Hl as Hl.
    destruct (IH a' Hl H) as [-> ->]. now split.
Qed.

Lemma String_tail_inj (c : ascii) (a b : string) :
  String c a = String c b -> a = b.
Proof. now intros [= ->]. Qed.

Lemma digit_inj (x y : Z) :
  0 <= x < 10 -> 0 <= y < 10 -> JS.digit x = JS.digit y -> x = y.
Proof.
  intros Hx Hy H. unfold JS.digit in H.
  apply (f_equal nat_of_ascii) in H.
  rewrite !nat_ascii_embedding in H by lia. lia.
Qed.

Lemma fixed_inj (n : nat) :
  forall x y, 0 <= x < 10 ^ Z.of_nat n -> 0 <= y < 10 ^ Z.of_nat n ->
              fixed n x = fixed n y -> x = y.
Proof.
  induction n as [|n IH]; intros x y Hx Hy H.
  - cbn in Hx, Hy. lia.
  - rewrite Nat2Z.inj_succ, Z.pow_succ_r in Hx, Hy by lia.
    cbn [fixed] in H.
    apply append_inj_length in H as [H1 H2];
      [|now rewrite !fixed_length].
    assert (H3 : JS.digit (x mod 10) = JS.digit (y mod 10)) by congruence.
    clear H2. rename H3 into H2.
    apply digit_inj in H2;
      [|Z.to_euclidean_division_equations; lia ..].
    apply IH in H1;
      [|Z.to_euclidean_division_equations; lia ..].
    Z.to_euclidean_division_equations; lia.
Qed.

(** The expiry as [generateSASToken] prints it determines the instant:
    two instants of the years 0 to 9999 that are printed alike are the
    same millisecond. *)
Lemma format_inj (m1 m2 : Moment.t) :
  year0 <= m1 < year10000 -> year0 <= m2 < year10000 ->
  Moment.format m1 expiryFormat = Moment.format m2 expiryFormat ->
  m1 = m2.
Proof.
  intros R1 R2 H.
  rewrite (format_fixed m1 R1), (format_fixed m2 R2) in H.
  unfold fixedWidthTimestamp in H.
  unfold year0, year10000 in R1, R2.
  pose proof (civil_bounds (m1 / Moment.msPerDay)) as B1.
  pose proof (civil_bounds (m2 / Moment.msPerDay)) as B2.
  unfold Moment.year, Moment.month, Moment.date in H.
  destruct (Moment.civil_of_days (m1 / Moment.msPerDay)) as [[y1 mo1] d1] eqn:E1.
  destruct (Moment.civil_of_days (m2 / Moment.msPerDay)) as [[y2 mo2] d2] eqn:E2.
  cbn [fst snd] in H.
  destruct B1 as (Bm1 & Bd1 & By1). destruct B2 as (Bm2 & Bd2 & By2).
  assert (Hy1 : 0 <= y1 <= 9999)
    by (apply By1; unfold Moment.msPerDay;
        Z.to_euclidean_division_equations; lia).
  assert (Hy2 : 0 <= y2 <= 9999)
    by (apply By2; unfold Moment.msPerDay;
        Z.to_euclidean_division_equations; lia).
  apply append_inj_length in H as [Hy H]; [|now rewrite !fixed_length].
  cbn [append] in H. apply String_tail_inj in H.
  apply append_inj_length in H as [Hmo H]; [|now rewrite !fixed_length].
  cbn [append] in H. apply String_tail_inj in H.
  apply append_inj_length in H as [Hd H]; [|now rewrite !fixed_length].
  cbn [append] in H. apply String_tail_inj in H.
  apply append_inj_length in H as [Hh H]; [|now rewrite !fixed_length].
  cbn [append] in H. apply String_tail_inj in H.
  apply append_inj_length in H as [Hmi H]; [|now rewrite !fixed_length].
  cbn [append] in H. apply String_tail_inj in H.
  apply append_inj_length in H as [Hs H]; [|now rewrite !fixed_length].
  cbn [append] in H. apply String_tail_inj in H.
  apply append_inj_length in H as [Hms _]; [|now rewrite !fixed_length].
  apply (fixed_inj 4) in Hy; [|cbn; lia ..].
  apply (fixed_inj 2) in Hmo; [|cbn; lia ..].
  apply (fixed_inj 2) in Hd; [|cbn; lia ..].
  unfold Moment.hours, Moment.msPerDay in Hh.
  apply (fixed_inj 2) in Hh;
    [|cbn; Z.to_euclidean_division_equations; lia ..].
  unfold Moment.minutes in Hmi.
  apply (fixed_inj 2) in Hmi;
    [|cbn; Z.to_euclidean_division_equations; lia ..].
  unfold Moment.seconds in Hs.
  apply (fixed_inj 2) in Hs;
    [|cbn; Z.to_euclidean_division_equations; lia ..].
  unfold Moment.millisecond in Hms.
  apply (fixed_inj 3) in Hms;
    [|cbn; Z.to_euclidean_division_equations; lia ..].
  subst y2 mo2 d2. rewrite <- E2 in E1. apply civil_of_days_inj in E1.
  unfold Moment.msPerDay in E1.
  Z.to_euclidean_division_equations; lia.
Qed.

End Script.

(* ===================================================================== *)
(** ** Two worlds, and runs on examples *)
(* ===================================================================== *)

(** C8.  The credential depends on the world through the clock only:
    with the same identifier, key and expiry window, two calls at the
    same clock value return the same string, whatever else differs. *)
Theorem generateSASToken_deterministic
        (w1 w2 : world) (id key : string) (expiresIn : option Z)
        (token i k : option string) :
  clock w1 = clock w2 ->
  run (generateSASToken w1 id key expiresIn)
  = run (generateSASToken w2 id key expiresIn) /\
  run (getTokenOrThrow w1 token i k) = run (getTokenOrThrow w2 token i k).
Proof.
  intros H. split.
  - unfold run, generateSASToken. now rewrite H.
  - unfold run, getTokenOrThrow, generateSASToken. now rewrite H.
Qed.

Lemma generateSASToken_deterministic_witness :
  clock Sample.calm = clock (Sample.answering (NetError (Error "down"))) /\
  run (generateSASToken Sample.calm "integration" "key" None)
  = run (generateSASToken (Sample.answering (NetError (Error "down")))
           "integration" "key" None).
Proof.
  split; [reflexivity|].
  apply (generateSASToken_deterministic Sample.calm
           (Sample.answering (NetError (Error "down")))
           "integration" "key" None None None None).
  reflexivity.
Defined.

Lemma blob_file_round_trip_witness :
  run (downloadBlobs Registry.extensions Registry.resolve Sample.calm
         Sample.containerUrl "media")
  = (Return tt,
     [ NewBlobServiceClient "https://acct.blob.core.windows.net?sv=1";
       GetContainerClient "content";
       Mkdir "/work/media" true;
       Mkdir "/work/media/a" true;
       DownloadToFile "a/b" "media/a/b.png" ]) /\
  run (uploadBlobs Registry.types Sample.calm Sample.containerUrl "media")
  = (Return tt,
     [ NewBlobServiceClient "https://acct.blob.core.windows.net?sv=1";
       GetContainerClient "content";
       UploadFile (JS.Str "a/b") "media/a/b.png" (JS.Str "image/png") ]).
Proof.
  destruct (blob_file_round_trip Registry.extensions Registry.types
              Registry.resolve Sample.calm Sample.containerUrl "media")
    as (Hd & Hu & _); try reflexivity.
  split; [exact Hd | exact Hu].
Defined.

Lemma generateSASToken_format_witness :
  "integration" <> "" /\ "key" <> "" /\
  run (generateSASToken Sample.calm "integration" "key" None)
  = (Return
       ("SharedAccessSignature uid=integration&ex=2020-09-13T13:26:40.1230000Z&sn="
          ++ "PNUN3Ztvc9Dg2V9njS03GzBAFpYL+AgxKDeN5aorCtMAXOvy1FoAxou0zYS80bE6jQNU0r8nosiSGqE0sMCfOQ=="),
     []) /\
  String.length (Moment.format (clock Sample.calm + 3600 * 1000) expiryFormat)
  = 28%nat.
Proof.
  assert (H1 : "integration" <> "") by discriminate.
  assert (H2 : "key" <> "") by discriminate.
  destruct (generateSASToken_format Sample.calm "integration" "key" None
              H1 H2) as (H & _ & Hshape).
  split; [exact H1 | split; [exact H2 | split]].
  - rewrite H. vm_compute. reflexivity.
  - apply Hshape. cbv [clock Sample.calm Sample.now year0 year10000]. lia.
Defined.

Lemma getTokenOrThrow_resolution_witness :
  run (getTokenOrThrow Sample.calm (Some "SharedAccessSignature t") None None)
  = (Return "SharedAccessSignature t", []) /\
  run (getTokenOrThrow Sample.calm (Some "") (Some "integration") None)
  = (Throw (Error "You need to specify either: token or id AND key"), []).
Proof.
  split.
  - apply (proj1 (getTokenOrThrow_resolution Sample.calm
                    (Some "SharedAccessSignature t") None None));
      [reflexivity | discriminate].
  - apply (proj2 (proj2 (getTokenOrThrow_resolution Sample.calm
                           (Some "") (Some "integration") None)));
      [now right | right; now left].
Defined.

Lemma request_status_mapping_witness :
  fst (run (request (Sample.answering (Response 500 "Internal Server Error" ["oops"]))
              "POST" "https://portal.example/publish" "token" None))
  = Return (Rejected (MkError (Some "UnhandledError")
      "Could not complete request to https://portal.example/publish. Status: 500 Internal Server Error")) /\
  fst (run (request (Sample.answering (Response 200 "OK" ["O"; "K"]))
              "POST" "https://portal.example/publish" "token" None))
  = Return (Resolved (Text "OK")) /\
  fst (run (request (Sample.answering (Response 200 "OK" ["{"]))
              "POST" "https://portal.example/publish" "token" None))
  = Return (Uncaught SyntaxError).
Proof.
  split; [|split].
  3:{ apply (request_status_mapping
               (Sample.answering (Response 200 "OK" ["{"]))
               "POST" "https://portal.example/publish" "token" None
               200 "OK" ["{"] eq_refl);
        [now left | reflexivity | reflexivity]. }
  - apply (request_status_mapping
             (Sample.answering (Response 500 "Internal Server Error" ["oops"]))
             "POST" "https://portal.example/publish" "token" None
             500 "Internal Server Error" ["oops"] eq_refl);
      discriminate.
  - apply (request_status_mapping
             (Sample.answering (Response 200 "OK" ["O"; "K"]))
             "POST" "https://portal.example/publish" "token" None
             200 "OK" ["O"; "K"] eq_refl);
      [now left | reflexivity].
Defined.

(** The defect of [request] at work, on a response of status 200 whose
    body is an opening brace and nothing else: [JSON.parse] throws in
    the listener, and the promise is neither resolved nor rejected. *)
Lemma request_malformed_body_throws :
  let w := Sample.answering (Response 200 "OK" ["{"]) in
  let settled :=
    fst (run (request w "POST" "https://portal.example/publish" "token" None)) in
  JS.startsWith "{" "{" = true /\
  JSON.parse "{" = None /\
  settled = Return (Uncaught SyntaxError) /\
  (forall v, settled <> Return (Resolved v)).
Proof.
  cbv zeta. repeat split. intros v. vm_compute. discriminate.
Qed.

Lemma request_transport_error_witness :
  let e := MkError (Some "ECONNRESET") "socket hang up" in
  fst (run (request (Sample.answering (NetError e))
              "POST" "https://portal.example/publish" "token" (Some "{}")))
  = Return (Rejected e) /\
  httpsRequests
    (snd (run (request (Sample.answering (NetError e))
                 "POST" "https://portal.example/publish" "token" (Some "{}"))))
  = 1%nat.
Proof.
  cbv zeta.
  apply (request_transport_error
           (Sample.answering (NetError (MkError (Some "ECONNRESET") "socket hang up")))
           "POST" "https://portal.example/publish" "token" (Some "{}")).
  reflexivity.
Defined.

Lemma serviceUrl_first_occurrence_witness :
  serviceUrl ("https://acct.blob.core.windows.net" ++ "/content" ++ "?sv=1")
  = "https://acct.blob.core.windows.net" ++ "?sv=1" /\
  serviceUrl "https://acct.blob.core.windows.net/media" 
  = "https://acct.blob.core.windows.net/media".
Proof.
  pose proof (serviceUrl_first_occurrence Registry.extensions Registry.types
                Registry.resolve Sample.calm
                "https://acct.blob.core.windows.net/media" "media")
    as (Hfirst & Hnone & _).
  split.
  - apply Hfirst. reflexivity.
  - apply Hnone. reflexivity.
Defined.

Lemma download_path_mapping_witness :
  pathToFile Registry.extensions "media" (Blob "a/b" "image/png")
  = "media/a/b.png" /\
  pathToFile Registry.extensions "media" (Blob "c" "application/x-nothing")
  = "media/c.false" /\
  run (downloadBlobs Registry.extensions Registry.resolve Sample.unknownType
         Sample.containerUrl "media")
  = (Return tt,
     [ NewBlobServiceClient "https://acct.blob.core.windows.net?sv=1";
       GetContainerClient "content";
       Mkdir "/work/media" true;
       Mkdir "/work/media" true;
       DownloadToFile "c" "media/c.false" ]).
Proof.
  pose proof (download_path_mapping Registry.extensions Registry.resolve
                Sample.unknownType Sample.containerUrl "media")
    as (Hknown & Hunknown & _ & Hrun).
  split; [|split].
  - apply (Hknown (Blob "a/b" "image/png") "png"). reflexivity.
  - apply (Hunknown (Blob "c" "application/x-nothing")). reflexivity.
  - rewrite Hrun; [reflexivity | intros i c _; reflexivity | reflexivity].
Defined.

Lemma unknown_content_type_fallback_witness :
  Registry.extensions "application/x-nothing" = None /\
  Registry.types "media/c.zzz" = None /\
  uploadContentType Registry.types "media/c.zzz"
  = JS.Str "application/octet-stream" /\
  pathToFile Registry.extensions "media" (Blob "c" "application/x-nothing")
  = "media/c.false".
Proof.
  destruct (unknown_content_type_fallback Registry.extensions Registry.types
              "media" "media/c.zzz" (Blob "c" "application/x-nothing")
              eq_refl eq_refl) as (Hu & Hd & _).
  split; [reflexivity | split; [reflexivity | split; [exact Hu | exact Hd]]].
Defined.

Lemma bulk_operations_abort_witness :
  let e := MkError (Some "ENOENT") "no such file" in
  run (downloadBlobs Registry.extensions Registry.resolve
         (Sample.threeBlobs e) Sample.containerUrl "media")
  = (Throw (Error "Unable to download media files. no such file"),
     [ NewBlobServiceClient "https://acct.blob.core.windows.net?sv=1";
       GetContainerClient "content";
       Mkdir "/work/media" true;
       Mkdir "/work/media" true;
       DownloadToFile "one" "media/one.png";
       Mkdir "/work/media" true;
       DownloadToFile "two" "media/two.png" ]) /\
  run (deleteBlobs (Sample.threeBlobs e) Sample.containerUrl)
  = (Throw (Error "Unable to delete media files. no such file"),
     [ NewBlobServiceClient "https://acct.blob.core.windows.net?sv=1";
       GetContainerClient "content";
       DeleteBlob "one";
       DeleteBlob "two" ]).
Proof.
  cbv zeta.
  pose proof (bulk_operations_abort Registry.extensions Registry.types
                Registry.resolve
                (Sample.threeBlobs (MkError (Some "ENOENT") "no such file"))
                Sample.containerUrl "media") as H.
  split.
  - refine (proj1 (H 6%nat (MkError (Some "ENOENT") "no such file")) _).
    exists (DownloadToFile "two" "media/two.png").
    split; [reflexivity | split; [reflexivity|]].
    intros i c' Hi Hn.
    do 6 (destruct i as [|i]; [injection Hn as <-; reflexivity|]). lia.
  - refine (proj1 (proj2 (proj2
              (H 3%nat (MkError (Some "ENOENT") "no such file")))) _).
    exists (DeleteBlob "two").
    split; [reflexivity | split; [reflexivity|]].
    intros i c' Hi Hn.
    do 3 (destruct i as [|i]; [injection Hn as <-; reflexivity|]). lia.
Defined.

(** C6 as it is stated fails on the cause: two runs that differ in the
    error thrown by the second transfer (the same message, another
    [code]) end with the same error, so the error that is thrown does
    not determine its cause. *)
Lemma wrapped_error_keeps_message_only :
  let e1 := MkError (Some "ENOENT") "no such file" in
  let e2 := MkError (Some "EACCES") "no such file" in
  e1 <> e2 /\
  run (downloadBlobs Registry.extensions Registry.resolve
         (Sample.threeBlobs e1) Sample.containerUrl "media")
  = run (downloadBlobs Registry.extensions Registry.resolve
           (Sample.threeBlobs e2) Sample.containerUrl "media") /\
  run (uploadBlobs Registry.types (Sample.threeBlobs e1)
         Sample.containerUrl "media")
  = run (uploadBlobs Registry.types (Sample.threeBlobs e2)
           Sample.containerUrl "media") /\
  run (deleteBlobs (Sample.threeBlobs e1) Sample.containerUrl)
  = run (deleteBlobs (Sample.threeBlobs e2) Sample.containerUrl) /\
  fst (run (uploadBlobs Registry.types (Sample.threeBlobs e1)
              Sample.containerUrl "media"))
  = Throw (Error "Unable to upload media files. no such file").
Proof.
  cbv zeta. split; [discriminate|]. repeat split.
Qed.

Lemma append_cancel_l (a x y : string) : a ++ x = a ++ y -> x = y.
Proof.
  induction a as [|c a IH]; cbn [append]; [trivial|].
  intros H. apply IH. now apply String_tail_inj in H.
Qed.

(** X20.  The expiry is printed so that it determines the instant: with
    the same identifier, key and expiry window, the credentials derived
    at two different clock values (expiries in the years 0 to 9999) are
    different strings. *)
Theorem credentials_differ_in_time
        (w1 w2 : world) (id key : string) (expiresIn : option Z) :
  let seconds := match expiresIn with Some n => n | None => 3600 end in
  year0 <= clock w1 + seconds * 1000 < year10000 ->
  year0 <= clock w2 + seconds * 1000 < year10000 ->
  clock w1 <> clock w2 ->
  fst (run (generateSASToken w1 id key expiresIn))
  <> fst (run (generateSASToken w2 id key expiresIn)).
Proof.
  intros seconds R1 R2 Hc. unfold run, generateSASToken, ret, Moment.add_seconds.
  fold seconds. cbn [fst]. intros H.
  assert (H' : "SharedAccessSignature uid=" ++ id ++ "&ex="
               ++ Moment.format (clock w1 + seconds * 1000) expiryFormat
               ++ "&sn="
               ++ Crypto.createHmac_sha512_base64 key
                    (id ++ newline
                        ++ Moment.format (clock w1 + seconds * 1000) expiryFormat)
               = "SharedAccessSignature uid=" ++ id ++ "&ex="
               ++ Moment.format (clock w2 + seconds * 1000) expiryFormat
               ++ "&sn="
               ++ Crypto.createHmac_sha512_base64 key
                    (id ++ newline
                        ++ Moment.format (clock w2 + seconds * 1000) expiryFormat))
    by congruence.
  clear H. apply append_cancel_l, append_cancel_l, append_cancel_l in H'.
  apply append_inj_length in H' as [He _].
  - apply format_inj in He; [lia | exact R1 | exact R2].
  - rewrite (format_fixed _ R1), (format_fixed _ R2).
    now rewrite !fixedWidthTimestamp_length.
Qed.

Lemma credentials_differ_in_time_witness :
  clock Sample.calm <> clock Fixture.later /\
  fst (run (generateSASToken Sample.calm "integration" "key" None))
  <> fst (run (generateSASToken Fixture.later "integration" "key" None)).
Proof.
  assert (H : clock Sample.calm <> clock Fixture.later) by discriminate.
  split; [exact H|].
  apply (credentials_differ_in_time Sample.calm Fixture.later
           "integration" "key" None); try exact H;
    cbv [clock Sample.calm Fixture.later Sample.now year0 year10000]; lia.
Defined.

Lemma upload_keys_are_relative_witness :
  In "media/a/b.png" (listFiles "media" (Dir Fixture.entries)) /\
  exists rel, "media/a/b.png" = "media" ++ "/" ++ rel /\
              blobKey "media" "media/a/b.png" = JS.at0 (JS.split rel ".").
Proof.
  assert (H : In "media/a/b.png" (listFiles "media" (Dir Fixture.entries)))
    by (cbn; auto).
  split; [exact H|].
  apply (upload_keys_are_relative "media" Fixture.entries "media/a/b.png" H).
Defined.

Lemma listFilesInDirectory_counts_files_witness :
  (local Fixture.nested "media" = Some (Dir Fixture.entries) /\
   exists files,
     run (listFilesInDirectory Fixture.nested "media") = (Return files, []) /\
     List.length files = 2%nat) /\
  run (listFilesInDirectory Fixture.nested "nowhere")
  = (Throw (MkError (Some "ENOENT")
              "ENOENT: no such file or directory, scandir 'nowhere'"), []) /\
  run (listFilesInDirectory Fixture.dangling "media")
  = (Throw (MkError (Some "ENOENT")
              "ENOENT: no such file or directory, stat 'media/link'"), []).
Proof.
  split; [split; [reflexivity|] | split].
  - apply (proj1 (listFilesInDirectory_counts_files Fixture.nested "media")
             Fixture.entries eq_refl).
  - apply (proj1 (proj2 (listFilesInDirectory_counts_files Fixture.nested
                           "nowhere"))).
    reflexivity.
  - apply (proj2 (proj2 (listFilesInDirectory_counts_files Fixture.dangling
                           "media"))
             [("a.png", Plain)] "link" (Lost (Fixture.noTarget "media/link"))
             [("z.png", Plain)] (Fixture.noTarget "media/link")).
    + reflexivity.
    + discriminate.
    + left. reflexivity.
Defined.

Lemma round_trip_iff_no_dot_witness :
  blobKey "media" "media/a/b.png" = JS.Str "a/b" /\
  blobKey "media" "media/a/b.png" <> JS.Str "a.b".
Proof.
  split.
  - apply (proj1 (round_trip_iff_no_dot Registry.extensions "media"
                    (Blob "a/b" "image/png") "media/a/b.png") eq_refl).
    reflexivity.
  - apply (proj2 (round_trip_iff_no_dot Registry.extensions "media"
                    (Blob "a.b" "image/png") "media/a/b.png")).
    reflexivity.
Defined.

Lemma upload_from_missing_folder_witness :
  (exists cause,
     run (uploadBlobs Registry.types Sample.calm Sample.containerUrl "nowhere")
     = (Throw (Error ("Unable to upload media files. " ++ cause)),
        [ NewBlobServiceClient "https://acct.blob.core.windows.net?sv=1";
          GetContainerClient "content" ])) /\
  (exists cause,
     run (uploadBlobs Registry.types Fixture.dangling Sample.containerUrl
            "media")
     = (Throw (Error ("Unable to upload media files. " ++ cause)),
        [ NewBlobServiceClient "https://acct.blob.core.windows.net?sv=1";
          GetContainerClient "content" ])).
Proof.
  split.
  - apply (upload_from_missing_folder Registry.types Sample.calm
             Sample.containerUrl "nowhere").
    + intros entries. discriminate.
    + intros i c _. reflexivity.
  - apply (upload_from_missing_folder Registry.types Fixture.dangling
             Sample.containerUrl "media").
    + intros entries. discriminate.
    + intros i c _. reflexivity.
Defined.

Lemma bulk_returns_iff_all_succeed_witness :
  fst (run (deleteBlobs Sample.calm Sample.containerUrl)) = Return tt /\
  snd (run (deleteBlobs Sample.calm Sample.containerUrl))
  = [ NewBlobServiceClient "https://acct.blob.core.windows.net?sv=1";
      GetContainerClient "content"; DeleteBlob "a/b" ] /\
  fst (run (uploadBlobs Registry.types Fixture.dangling Sample.containerUrl
              "media"))
  <> Return tt.
Proof.
  pose proof (bulk_returns_iff_all_succeed Registry.extensions Registry.types
                Registry.resolve Sample.calm Sample.containerUrl "media")
    as (_ & _ & Hiff & _ & _ & Hlog).
  assert (H : fst (run (deleteBlobs Sample.calm Sample.containerUrl)) = Return tt).
  { apply Hiff. split; [intros i c _; reflexivity | reflexivity]. }
  split; [exact H | split; [exact (Hlog H)|]].
  intros Hup.
  apply (proj1 (proj1 (proj2 (bulk_returns_iff_all_succeed Registry.extensions
                                Registry.types Registry.resolve Fixture.dangling
                                Sample.containerUrl "media")))) in Hup.
  destruct Hup as (entries & Hl & _). discriminate Hl.
Defined.

Lemma request_body_and_length_witness :
  snd (run (request Sample.calm "PUT" "https://portal.example/x" "token"
              (Some "{}")))
  = [ HttpsRequest "https://portal.example/x"
        (Options 443 "PUT"
           [ ("If-Match", "*"); ("Content-Type", "application/json");
             ("Authorization", "token"); ("Content-Length", "2") ]);
      ReqWrite "{}"; ReqEnd ] /\
  snd (run (request Sample.calm "PUT" "https://portal.example/x" "token"
              (Some "")))
  = [ HttpsRequest "https://portal.example/x"
        (Options 443 "PUT"
           [ ("If-Match", "*"); ("Content-Type", "application/json");
             ("Authorization", "token") ]);
      ReqEnd ].
Proof.
  split.
  - apply (proj1 (proj2 (request_body_and_length Sample.calm "PUT"
                           "https://portal.example/x" "token" (Some "{}")))
                 "{}" eq_refl).
    discriminate.
  - apply (proj2 (proj2 (request_body_and_length Sample.calm "PUT"
                           "https://portal.example/x" "token" (Some "")))).
    now right.
Defined.

Lemma request_parses_objects_only_witness :
  exists j,
    fst (run (request Fixture.secrets "POST" (listSecretsUrl "m.example")
                "token" None))
    = Return (Resolved (Parsed j)) /\
    exists ms, j = JSON.JObject ms.
Proof.
  eexists. split; [vm_compute; reflexivity|].
  refine (proj1 (request_parses_objects_only Fixture.secrets "POST"
                   (listSecretsUrl "m.example") "token" None _ _)).
  vm_compute. reflexivity.
Defined.

Lemma publish_one_request_witness :
  fst (publish (Sample.answering (Response 404 "Not Found" []))
         (Some "p.example") "token" [])
  = Failed (Error
      "Unable to schedule website publishing. Resource not found: https://p.example/publish").
Proof.
  exact (proj1 (proj2 (publish_one_request
                         (Sample.answering (Response 404 "Not Found" []))
                         (Some "p.example") "token"))
           (MkError (Some "NotFound")
              "Resource not found: https://p.example/publish")
           eq_refl).
Defined.

Lemma script_without_credentials_witness :
  script Yargs.accepts Sample.calm None None None (Some "p.example") []
  = (ExitCode1
       "Unable to complete migration. You need to specify either: token or id AND key",
     []).
Proof.
  apply (script_without_credentials Yargs.accepts Sample.calm None None None
           (Some "p.example")); [reflexivity | now left | left; now left].
Defined.

Lemma script_sends_credential_witness :
  run (getTokenOrThrow Sample.calm None (Some "integration") (Some "key"))
  = (Return
       ("SharedAccessSignature uid=integration&ex=2020-09-13T13:26:40.1230000Z&sn="
          ++ "PNUN3Ztvc9Dg2V9njS03GzBAFpYL+AgxKDeN5aorCtMAXOvy1FoAxou0zYS80bE6jQNU0r8nosiSGqE0sMCfOQ=="),
     []) /\
  script Yargs.accepts Sample.calm None (Some "integration") (Some "key")
    (Some "p.example") []
  = (Done,
     [ HttpsRequest "https://p.example/publish"
         (Options 443 "POST"
            [ ("If-Match", "*"); ("Content-Type", "application/json");
              ("Authorization",
               "SharedAccessSignature uid=integration&ex=2020-09-13T13:26:40.1230000Z&sn="
                 ++ "PNUN3Ztvc9Dg2V9njS03GzBAFpYL+AgxKDeN5aorCtMAXOvy1FoAxou0zYS80bE6jQNU0r8nosiSGqE0sMCfOQ==") ]);
       ReqEnd ]).
Proof.
  assert (H : run (getTokenOrThrow Sample.calm None (Some "integration")
                     (Some "key"))
              = (Return
                   ("SharedAccessSignature uid=integration&ex=2020-09-13T13:26:40.1230000Z&sn="
                      ++ "PNUN3Ztvc9Dg2V9njS03GzBAFpYL+AgxKDeN5aorCtMAXOvy1FoAxou0zYS80bE6jQNU0r8nosiSGqE0sMCfOQ=="),
                 []))
    by (vm_compute; reflexivity).
  split; [exact H|].
  destruct (script_sends_credential Yargs.accepts Sample.calm None
              (Some "integration") (Some "key") (Some "p.example") _
              eq_refl H) as (Hlog & Hdone & _).
  rewrite (surjective_pairing (script _ _ _ _ _ _ _)).
  rewrite Hlog, (Hdone (Text "OK") eq_refl). reflexivity.
Defined.

Lemma script_without_endpoint_witness :
  "token" <> "" /\
  exists o,
    snd (script Yargs.accepts Sample.calm (Some "token") None None None [])
    = [HttpsRequest "https://undefined/publish" o; ReqEnd] /\
    method o = "POST" /\ In ("Authorization", "token") (headers o).
Proof.
  assert (H : "token" <> "") by discriminate.
  split; [exact H|].
  apply (script_without_endpoint Yargs.accepts Sample.calm "token" eq_refl H).
Defined.

Lemma getStorageSasTokenOrThrow_needs_token_witness :
  getStorageSasTokenOrThrow Fixture.secrets "m.example" (Some "") []
  = (Failed (Error "Storage connection could not be retrieved"), []).
Proof.
  apply (proj1 (getStorageSasTokenOrThrow_needs_token Fixture.secrets
                  "m.example" (Some ""))).
  now right.
Defined.

Lemma getStorageSasToken_result_witness :
  fst (getStorageSasToken Fixture.secrets "m.example" "token" [])
  = Fulfilled (Some (JSON.JString (codeUnits Sample.containerUrl))) /\
  fst (getStorageSasToken Sample.calm "m.example" "token" []) = Fulfilled None.
Proof.
  split.
  - pose proof (getStorageSasToken_result Fixture.secrets "m.example" "token")
      as (_ & _ & Hobj & _).
    cbv zeta in Hobj. erewrite Hobj; [|vm_compute; reflexivity].
    vm_compute. reflexivity.
  - pose proof (getStorageSasToken_result Sample.calm "m.example" "token")
      as (_ & _ & _ & Htext).
    apply (Htext "OK"). reflexivity.
Defined.

Lemma publish_fulfils_iff_witness :
  fst (publish Sample.calm (Some "p.example") "token" []) = Fulfilled tt.
Proof.
  apply (proj2 (publish_fulfils_iff Sample.calm (Some "p.example") "token")).
  exists 200, "OK", ["OK"].
  split; [reflexivity | split; [now left | now left]].
Defined.
